(** * VolatilityFormatter (data_formatters/volatility.py): schema,
    calibration of scalers, input transform and prediction formatting.

    Numbers of a data frame are modelled as real numbers (the usual
    idealisation of IEEE doubles); strings as Rocq strings; a pandas
    DataFrame as a row index together with an ordered list of named
    columns; the formatter object as a record of its (optional) fields,
    threaded through a small state-and-error monad so that an exception
    raised half-way through a method leaves the attributes assigned before
    it in place, as in Python. *)

From Stdlib Require Import List String Ascii Reals Lra Psatz Lia Bool NArith.
From Stdlib Require Import Sorting.Sorted Permutation.
Import ListNotations.
Open Scope string_scope.

(** ** Enumerations of the base module (DataTypes, InputTypes) *)

Inductive DataTypes := REAL_VALUED | CATEGORICAL | DATE.

Inductive InputTypes :=
  TARGET | OBSERVED_INPUT | KNOWN_INPUT | STATIC_INPUT | ID | TIME.

Definition DataTypes_eqb (a b : DataTypes) : bool :=
  match a, b with
  | REAL_VALUED, REAL_VALUED | CATEGORICAL, CATEGORICAL | DATE, DATE => true
  | _, _ => false
  end.

Definition InputTypes_eqb (a b : InputTypes) : bool :=
  match a, b with
  | TARGET, TARGET | OBSERVED_INPUT, OBSERVED_INPUT | KNOWN_INPUT, KNOWN_INPUT
  | STATIC_INPUT, STATIC_INPUT | ID, ID | TIME, TIME => true
  | _, _ => false
  end.

(** ** Errors and results *)

Inductive error :=
  | ScalersNotSet        (* ValueError('Scalers have not been set!') *)
  | InvalidColumns       (* ValueError: not exactly one column of an input type *)
  | KeyError (k : string)
  | ConversionError      (* a non-numeric cell handed to a StandardScaler *)
  | EmptyInput           (* sklearn: 0 samples or 0 features *)
  | FeatureMismatch      (* sklearn: wrong number of features *)
  | UnseenLabel          (* LabelEncoder: y contains previously unseen labels *)
  | ExpectedTwoD         (* sklearn check_array: Expected 2D array, got 1D array *)
  | TypeError            (* comparison of a string with a number; subscript of None *)
  | AttributeError.      (* attribute of None *)

Inductive result (A : Type) := Ok (a : A) | Err (e : error).
Arguments Ok {A} a.
Arguments Err {A} e.

Definition rbind {A B} (m : result A) (k : A -> result B) : result B :=
  match m with Ok a => k a | Err e => Err e end.

Notation "x <-? m ;; k" := (rbind m (fun x => k))
  (at level 61, m at next level, right associativity).

Fixpoint mapR {A B} (g : A -> result B) (l : list A) : result (list B) :=
  match l with
  | [] => Ok []
  | x :: t => y <-? g x ;; ys <-? mapR g t ;; Ok (y :: ys)
  end.

Definition of_option {A} (e : error) (o : option A) : result A :=
  match o with Some a => Ok a | None => Err e end.

(** ** Cells and data frames *)

Inductive cell := VNum (r : R) | VStr (s : string).

Definition cell_eq_dec (a b : cell) : {a = b} + {a <> b}.
Proof.
  decide equality; [apply Req_EM_T | apply string_dec].
Defined.

(** A DataFrame: the row labels and the columns, in order. *)
Record frame := mk_frame { index : list nat; cols : list (string * list cell) }.

Definition col_names (df : frame) : list string := map fst (cols df).

Fixpoint lookup_col (n : string) (cs : list (string * list cell))
  : option (list cell) :=
  match cs with
  | [] => None
  | (m, c) :: t => if String.eqb m n then Some c else lookup_col n t
  end.

(** [df[n]] *)
Definition get_col (df : frame) (n : string) : result (list cell) :=
  of_option (KeyError n) (lookup_col n (cols df)).

(** [df[n] = v]: replaces the column in place, or appends a new one. *)
Fixpoint set_col_aux (n : string) (v : list cell) (cs : list (string * list cell))
  : list (string * list cell) :=
  match cs with
  | [] => [(n, v)]
  | (m, c) :: t => if String.eqb m n then (m, v) :: t else (m, c) :: set_col_aux n v t
  end.

Definition set_col (df : frame) (n : string) (v : list cell) : frame :=
  mk_frame (index df) (set_col_aux n v (cols df)).

(** [df.copy()]: a new frame holding the same index and columns. *)
Definition copy (df : frame) : frame := mk_frame (index df) (cols df).

(** Boolean-mask selection [df.loc[mask]]: keeps the rows whose mask is True,
    in order, with their labels. *)
Definition select {A} (mask : list bool) (l : list A) : list A :=
  map snd (filter fst (combine mask l)).

Definition loc (df : frame) (mask : list bool) : frame :=
  mk_frame (select mask (index df))
           (map (fun '(n, c) => (n, select mask c)) (cols df)).

(** [.values] of a numeric selection (one list per column). *)
Definition to_float (c : cell) : result R :=
  match c with VNum r => Ok r | VStr _ => Err ConversionError end.

Definition to_floats (l : list cell) : result (list R) := mapR to_float l.

Definition values (df : frame) (names : list string) : result (list (list R)) :=
  cs <-? mapR (get_col df) names ;; mapR to_floats cs.

(** [Series.unique()]: distinct values in order of first appearance. *)
Fixpoint unique_aux {A} (dec : forall a b : A, {a = b} + {a <> b})
    (seen : list A) (l : list A) : list A :=
  match l with
  | [] => []
  | x :: t =>
      if in_dec dec x seen then unique_aux dec seen t
      else x :: unique_aux dec (x :: seen) t
  end.

Definition pd_unique (l : list cell) : list cell := unique_aux cell_eq_dec [] l.

(** [Series.nunique()] on a column of strings. *)
Definition nunique (l : list string) : nat := List.length (unique_aux string_dec [] l).

(** ** sklearn.preprocessing.StandardScaler *)

Record StandardScaler := mk_scaler { mean_ : list R; scale_ : list R }.

Fixpoint sumR (l : list R) : R :=
  match l with [] => 0%R | x :: t => (x + sumR t)%R end.

Definition meanR (l : list R) : R := (sumR l / INR (List.length l))%R.

(** Population variance, as [StandardScaler] computes it. *)
Definition varR (l : list R) : R :=
  let m := meanR l in
  (sumR (map (fun x => (x - m) ^ 2) l) / INR (List.length l))%R.

(** [_handle_zeros_in_scale]: a zero scale is replaced by 1. *)
Definition handle_zeros_in_scale (s : R) : R :=
  if Req_EM_T s 0 then 1%R else s.

(** [StandardScaler().fit(X)], [X] given column by column. *)
Definition scaler_fit (data : list (list R)) : result StandardScaler :=
  match data with
  | [] | [] :: _ => Err EmptyInput
  | _ => Ok (mk_scaler (map meanR data)
                       (map (fun c => handle_zeros_in_scale (sqrt (varR c))) data))
  end.

(** The array-like argument of a scaler method: a 1-D pandas Series (the
    cells of one column), or a 2-D array given column by column. *)
Inductive array_like := Array1D (c : list cell) | Array2D (data : list (list R)).

(** [sklearn.utils.check_array] with the defaults the scalers use: the
    conversion to float, then [ensure_2d], then at least one sample and at
    least one feature. *)
Definition check_array (x : array_like) : result (list (list R)) :=
  match x with
  | Array1D c => _ <-? to_floats c ;; Err ExpectedTwoD
  | Array2D data =>
      match data with
      | [] | [] :: _ => Err EmptyInput
      | _ => Ok data
      end
  end.

(** [transform(X)]: [check_array], then the number of features, then
    [(x - mean_) / scale_] column by column. *)
Definition scaler_transform (sc : StandardScaler) (data : list (list R))
  : result (list (list R)) :=
  X <-? check_array (Array2D data) ;;
  if Nat.eqb (List.length X) (List.length (mean_ sc)) then
    Ok (map (fun '(c, (m, s)) => map (fun x => (x - m) / s)%R c)
            (combine X (combine (mean_ sc) (scale_ sc))))
  else Err FeatureMismatch.

(** [inverse_transform(X)]: [check_array], then [X *= scale_; X += mean_]
    with numpy broadcasting: a one-feature scaler applies to every column,
    otherwise the numbers of columns and of features must agree. *)
Definition scaler_inverse_transform (sc : StandardScaler) (x : array_like)
  : result (list (list R)) :=
  X <-? check_array x ;;
  match mean_ sc, scale_ sc with
  | [m], [s] => Ok (map (map (fun v => v * s + m)%R) X)
  | ms, ss =>
      if Nat.eqb (List.length X) (List.length ms) then
        Ok (map (fun '(c, (m, s)) => map (fun v => v * s + m)%R c)
                (combine X (combine ms ss)))
      else Err FeatureMismatch
  end.

(** ** sklearn.preprocessing.LabelEncoder *)

(** [np.unique]: the sorted distinct values. *)
Fixpoint insert_sorted (s : string) (l : list string) : list string :=
  match l with
  | [] => [s]
  | x :: t =>
      match String.compare s x with
      | Lt => s :: l
      | Eq => l
      | Gt => x :: insert_sorted s t
      end
  end.

Definition np_unique (l : list string) : list string := fold_right insert_sorted [] l.

(** The strict order [np.unique] sorts by. *)
Definition str_lt (a b : string) : Prop := String.compare a b = Lt.

Record LabelEncoder := mk_label_encoder { classes_ : list string }.

Definition label_encoder_fit (y : list string) : LabelEncoder :=
  mk_label_encoder (np_unique y).

Fixpoint index_of (s : string) (l : list string) : option nat :=
  match l with
  | [] => None
  | x :: t => if String.eqb x s then Some 0 else option_map S (index_of s t)
  end.

(** Unknown labels raise; known ones get their position in [classes_]. *)
Definition label_encoder_transform (enc : LabelEncoder) (y : list string)
  : result (list nat) :=
  mapR (fun s => of_option UnseenLabel (index_of s (classes_ enc))) y.

(** ** Schema *)

Definition column_definition : list (string * DataTypes * InputTypes) :=
  [ ("PRICE_ASK_0", REAL_VALUED, KNOWN_INPUT);
    ("PRICE_BID_0", REAL_VALUED, KNOWN_INPUT);
    ("VOLUME_ASK_0", REAL_VALUED, KNOWN_INPUT);
    ("VOLUME_BID_0", REAL_VALUED, KNOWN_INPUT);
    ("SPREAD", REAL_VALUED, KNOWN_INPUT);
    ("midprice", REAL_VALUED, KNOWN_INPUT);
    ("id", REAL_VALUED, ID);
    ("time", REAL_VALUED, TIME);
    ("rolling_volatility", REAL_VALUED, TARGET);
    ("STOCK", CATEGORICAL, STATIC_INPUT) ].

(** Modelled from the spec: [GenericDataFormatter.get_column_definition] of
    the base module (not in src); the schema, in its declared order. *)
Definition get_column_definition : list (string * DataTypes * InputTypes) :=
  column_definition.

(** Modelled from the spec: [utils2.extract_cols_from_data_type] (not in
    src); the names of the columns of a semantic type whose role is not in
    the excluded set, in schema order. *)
Definition extract_cols_from_data_type (dt : DataTypes)
    (defs : list (string * DataTypes * InputTypes)) (excluded : list InputTypes)
  : list string :=
  map (fun '(n, _, _) => n)
      (filter (fun '(_, d, i) =>
                 DataTypes_eqb d dt && negb (existsb (InputTypes_eqb i) excluded))
              defs).

(** Modelled from the spec: [utils2.get_single_col_by_input_type] (not in
    src); the one column of a role, an error when there is not exactly one. *)
Definition get_single_col_by_input_type (it : InputTypes)
    (defs : list (string * DataTypes * InputTypes)) : result string :=
  match map (fun '(n, _, _) => n)
            (filter (fun '(_, _, i) => InputTypes_eqb i it) defs) with
  | [n] => Ok n
  | _ => Err InvalidColumns
  end.

(** ** The formatter object *)

Record formatter := mk_formatter {
  identifiers : option (list cell);
  real_scalers : option StandardScaler;
  cat_scalers : option (list (string * LabelEncoder));
  target_scaler : option StandardScaler;
  num_classes_per_cat_input : option (list nat);
  time_steps : nat;
  num_encoder_steps : nat }.

(** [get_fixed_params(forecast_horizon)]: the dictionary of fixed model
    parameters, as a record with its keys as fields. *)
Module FixedParams.
Record t := mk {
  total_time_steps : nat;
  num_encoder_steps : nat;
  num_epochs : nat;
  early_stopping_patience : nat;
  multiprocessing_workers : nat }.
End FixedParams.

Definition get_fixed_params (forecast_horizon : nat) : FixedParams.t :=
  FixedParams.mk (100 + forecast_horizon) 100 100 5 5.

(** [get_time_steps()] and [get_num_encoder_steps()]: read from
    [get_fixed_params()] with its default horizon. *)
Definition get_time_steps : nat := FixedParams.total_time_steps (get_fixed_params 20).
Definition get_num_encoder_steps : nat :=
  FixedParams.num_encoder_steps (get_fixed_params 20).

(** [VolatilityFormatter()]: the attributes unset, the two step counts read
    from [get_fixed_params()]. *)
Definition init : formatter :=
  mk_formatter None None None None None
               (FixedParams.total_time_steps (get_fixed_params 20))
               (FixedParams.num_encoder_steps (get_fixed_params 20)).

Definition set_identifiers (f : formatter) (v : list cell) : formatter :=
  mk_formatter (Some v) (real_scalers f) (cat_scalers f) (target_scaler f)
               (num_classes_per_cat_input f) (time_steps f) (num_encoder_steps f).
Definition set_real_scalers (f : formatter) (v : StandardScaler) : formatter :=
  mk_formatter (identifiers f) (Some v) (cat_scalers f) (target_scaler f)
               (num_classes_per_cat_input f) (time_steps f) (num_encoder_steps f).
Definition set_target_scaler (f : formatter) (v : StandardScaler) : formatter :=
  mk_formatter (identifiers f) (real_scalers f) (cat_scalers f) (Some v)
               (num_classes_per_cat_input f) (time_steps f) (num_encoder_steps f).
Definition set_cat_scalers (f : formatter) (v : list (string * LabelEncoder)) : formatter :=
  mk_formatter (identifiers f) (real_scalers f) (Some v) (target_scaler f)
               (num_classes_per_cat_input f) (time_steps f) (num_encoder_steps f).
Definition set_num_classes (f : formatter) (v : list nat) : formatter :=
  mk_formatter (identifiers f) (real_scalers f) (cat_scalers f) (target_scaler f)
               (Some v) (time_steps f) (num_encoder_steps f).

(** Methods run in a state-and-error monad over the formatter's attributes:
    an exception keeps the attributes assigned before it. *)
Definition M (A : Type) : Type := formatter -> formatter * result A.

Definition ret {A} (a : A) : M A := fun s => (s, Ok a).
Definition bind {A B} (m : M A) (k : A -> M B) : M B :=
  fun s => let (s', r) := m s in
           match r with Ok a => k a s' | Err e => (s', Err e) end.
Definition lift {A} (r : result A) : M A := fun s => (s, r).
Definition get : M formatter := fun s => (s, Ok s).
Definition modify (g : formatter -> formatter) : M unit := fun s => (g s, Ok tt).

Notation "x <- m ;; k" := (bind m (fun x => k))
  (at level 61, m at next level, right associativity).

Fixpoint assoc {A} (k : string) (l : list (string * A)) : option A :=
  match l with
  | [] => None
  | (k', v) :: t => if String.eqb k' k then Some v else assoc k t
  end.

Definition heap := list frame.

Fixpoint heap_update (h : heap) (l : nat) (g : frame -> frame) : heap :=
  match h, l with
  | [], _ => []
  | x :: t, O => g x :: t
  | x :: t, S l' => x :: heap_update t l' g
  end.

Definition reserved (col : string) : bool :=
  String.eqb col "forecast_time" || String.eqb col "identifier".

(** ** Sample tables *)

(** A one-row table with every schema column, and a time bucket. *)
Definition cal_df : frame :=
  mk_frame [0]
    [("PRICE_ASK_0", [VNum 1]); ("PRICE_BID_0", [VNum 1]);
     ("VOLUME_ASK_0", [VNum 3]); ("VOLUME_BID_0", [VNum 4]);
     ("SPREAD", [VNum 0]); ("midprice", [VNum 1]);
     ("id", [VNum 0]); ("time", [VNum 0]);
     ("rolling_volatility", [VNum 2]); ("STOCK", [VStr "AAPL"]);
     ("DAY", [VNum 5])].

(** Time buckets 5 to 9. *)
Definition day_df : frame :=
  mk_frame [0; 1; 2; 3; 4] [("DAY", map VNum [5; 6; 7; 8; 9]%R)].

(** Predictions with the two reserved columns and one quantile. *)
Definition pred_df : frame :=
  mk_frame [0]
    [("forecast_time", [VNum 0]); ("identifier", [VStr "AAPL"]); ("p50", [VNum 1])].

(** Predictions with only the two reserved columns. *)
Definition pred_reserved_df : frame :=
  mk_frame [0] [("forecast_time", [VNum 0]); ("identifier", [VStr "AAPL"])].

(** [cal_df] with a 'STOCK' label absent from it. *)
Definition unseen_df : frame :=
  mk_frame (index cal_df)
    (map (fun '(n, c) => if String.eqb n "STOCK" then (n, [VStr "MSFT"]) else (n, c))
         (cols cal_df)).

(** A table with every schema column: the six features and the target all
    holding [xs], the identifiers [ids], the labels [stocks], and the time
    buckets [days] (also used as timestamps). *)
Definition sample_table (ids : list cell) (xs days : list R) (stocks : list string)
  : frame :=
  mk_frame (seq 0 (List.length days))
    (map (fun n => (n, map VNum xs))
         ["PRICE_ASK_0"; "PRICE_BID_0"; "VOLUME_ASK_0"; "VOLUME_BID_0"; "SPREAD";
          "midprice"] ++
     [("id", ids); ("time", map VNum days); ("rolling_volatility", map VNum xs);
      ("STOCK", map VStr stocks); ("DAY", map VNum days)])%list.

(** Three rows, one in each part for the boundaries (7, 8). *)
Definition split_df : frame :=
  sample_table (map VNum [0; 1; 2]%R) [2; 10; 20]%R [5; 7; 9]%R ["AAPL"; "MSFT"; "GOOG"].

(** [split_df] with other validation and test rows. *)
Definition split_df' : frame :=
  sample_table (map VNum [0; 3; 4]%R) [2; 30; 40]%R [5; 7; 9]%R ["AAPL"; "IBM"; "IBM"].

(** Two rows with distinct values and two labels. *)
Definition cal2_df : frame :=
  sample_table (map VNum [0; 1]%R) [1; 3]%R [5; 6]%R ["MSFT"; "AAPL"].

(** The labels of [cal2_df] in another order and with a repetition. *)
Definition cal3_df : frame :=
  sample_table (map VNum [0; 1; 2]%R) [4; 5; 6]%R [5; 6; 6]%R ["AAPL"; "MSFT"; "AAPL"].

(** Identifiers with repetitions. *)
Definition ids_df : frame :=
  sample_table (map VNum [2; 1; 2; 3]%R) [1; 2; 3; 4]%R [5; 5; 6; 6]%R
               ["AAPL"; "AAPL"; "AAPL"; "AAPL"].

(** [str] of floats for the samples (any deterministic rendering). *)
Definition sample_repr (_ : R) : string := "0.0".

(** ** The methods of VolatilityFormatter *)

Section Volatility.

(** Python's [str] of a float (its repr). *)
Variable float_repr : R -> string.

(** [.apply(str)] on one cell. *)
Definition py_str (c : cell) : string :=
  match c with VNum r => float_repr r | VStr s => s end.

Definition real_inputs : list string :=
  extract_cols_from_data_type REAL_VALUED get_column_definition [ID; TIME].

Definition categorical_inputs : list string :=
  extract_cols_from_data_type CATEGORICAL get_column_definition [ID; TIME].

(** One categorical column: its encoder and its number of classes. *)
Definition fit_categorical (df : frame) (col : string)
  : result ((string * LabelEncoder) * nat) :=
  c <-? get_col df col ;;
  let srs := map py_str c in
  Ok ((col, label_encoder_fit srs), nunique srs).

Definition set_scalers (df : frame) : M unit :=
  let column_definitions := get_column_definition in
  id_column <- lift (get_single_col_by_input_type ID column_definitions) ;;
  target_column <- lift (get_single_col_by_input_type TARGET column_definitions) ;;
  ids <- lift (get_col df id_column) ;;
  _ <- modify (fun f => set_identifiers f (pd_unique ids)) ;;
  data <- lift (values df real_inputs) ;;
  rs <- lift (scaler_fit data) ;;
  _ <- modify (fun f => set_real_scalers f rs) ;;
  tdata <- lift (values df [target_column]) ;;
  ts <- lift (scaler_fit tdata) ;;
  _ <- modify (fun f => set_target_scaler f ts) ;;
  cats <- lift (mapR (fit_categorical df) categorical_inputs) ;;
  _ <- modify (fun f => set_cat_scalers f (map fst cats)) ;;
  modify (fun f => set_num_classes f (map snd cats)).

(** One categorical column of [transform_inputs]: its label codes. *)
Definition encode_categorical (cso : option (list (string * LabelEncoder)))
    (df : frame) (col : string) : result (string * list cell) :=
  c <-? get_col df col ;;
  let string_df := map py_str c in
  cs <-? of_option TypeError cso ;;
  enc <-? of_option (KeyError col) (assoc col cs) ;;
  codes <-? label_encoder_transform enc string_df ;;
  Ok (col, map (fun k => VNum (INR k)) codes).

(** The column assignments [transform_inputs] makes on its output, computed
    from reads of its input [df] and of the formatter [f]. *)
Definition transform_writes (f : formatter) (df : frame)
  : result (list (string * list cell)) :=
  match real_scalers f, cat_scalers f with
  | None, None => Err ScalersNotSet
  | rso, cso =>
      rs <-? of_option AttributeError rso ;;
      data <-? values df real_inputs ;;
      out <-? scaler_transform rs data ;;
      w2 <-? mapR (encode_categorical cso df) categorical_inputs ;;
      Ok (combine real_inputs (map (map VNum) out) ++ w2)%list
  end.

Definition apply_writes (df : frame) (ws : list (string * list cell)) : frame :=
  fold_left (fun acc '(n, v) => set_col acc n v) ws df.

Definition transform_inputs (df : frame) : M frame :=
  let output := copy df in
  f <- get ;;
  ws <- lift (transform_writes f df) ;;
  ret (apply_writes output ws).

(** [transform_inputs] on frames living in a heap: the input is the frame at
    [l]; [df.copy()] allocates the output at a fresh location, which the
    column assignments then update. *)
Definition transform_inputs_at (h : heap) (l : nat) : M (heap * nat) :=
  f <- get ;;
  df <- lift (of_option AttributeError (nth_error h l)) ;;
  let o := List.length h in
  let h1 := (h ++ [copy df])%list in
  ws <- lift (transform_writes f df) ;;
  ret (fold_left (fun h' '(n, v) => heap_update h' o (fun fr => set_col fr n v)) ws h1, o).

(** The loop of [format_predictions] over the column names. On a table
    with distinct column names, [predictions[col]] is the 1-D Series of that
    column; [self._target_scaler.inverse_transform] is looked up first (an
    attribute of None when the scaler is unset), then called on it. *)
Fixpoint format_loop (ts : option StandardScaler) (predictions : frame)
    (names : list string) (output : frame) : result frame :=
  match names with
  | [] => Ok output
  | col :: rest =>
      if reserved col then format_loop ts predictions rest output
      else
        sc <-? of_option AttributeError ts ;;
        c <-? get_col predictions col ;;
        inv <-? scaler_inverse_transform sc (Array1D c) ;;
        format_loop ts predictions rest (set_col output col (map VNum (List.concat inv)))
  end.

Definition format_predictions (predictions : frame) : M frame :=
  f <- get ;;
  lift (format_loop (target_scaler f) predictions (col_names predictions)
                    (copy predictions)).

(** Element-wise comparisons of the [DAY] column with a boundary. *)
Definition cmp_mask (p : R -> bool) (index : list cell) : result (list bool) :=
  mapR (fun c => match c with VNum r => Ok (p r) | VStr _ => Err TypeError end) index.

Definition ltb_R (a b : R) : bool := if Rlt_dec a b then true else false.

Definition and_mask (m1 m2 : list bool) : list bool :=
  map (fun '(a, b) => a && b) (combine m1 m2).

Definition split_parts (df : frame) (valid_boundary test_boundary : R)
  : result (frame * frame * frame) :=
  index <-? get_col df "DAY" ;;
  m_train <-? cmp_mask (fun d => ltb_R d valid_boundary) index ;;
  m_v1 <-? cmp_mask (fun d => negb (ltb_R d valid_boundary)) index ;;
  m_v2 <-? cmp_mask (fun d => ltb_R d test_boundary) index ;;
  m_test <-? cmp_mask (fun d => negb (ltb_R d test_boundary)) index ;;
  Ok (loc df m_train, loc df (and_mask m_v1 m_v2), loc df m_test).

(** [split_data] calibrates on the training part and returns the generator
    of the three transforms, each run when the caller draws it. *)
Definition split_data (df : frame) (valid_boundary test_boundary : R)
  : M (list (M frame)) :=
  parts <- lift (split_parts df valid_boundary test_boundary) ;;
  let '(train, valid, test) := parts in
  _ <- set_scalers train ;;
  ret (map transform_inputs [train; valid; test]).

(** ** Lemmas on the monad and the result type *)

Lemma mapR_Forall2 {A B} (g : A -> result B) l l' :
  mapR g l = Ok l' -> Forall2 (fun a b => g a = Ok b) l l'.
Proof.
  revert l'; induction l as [|x t IH]; intros l' H; simpl in H.
  - inversion H; constructor.
  - destruct (g x) eqn:Hg; simpl in H; [|discriminate].
    destruct (mapR g t) eqn:Ht; simpl in H; [|discriminate].
    inversion H; subst; constructor; auto.
Qed.

Lemma Forall2_mapR {A B} (g : A -> result B) l l' :
  Forall2 (fun a b => g a = Ok b) l l' -> mapR g l = Ok l'.
Proof.
  induction 1 as [|x y t t' Hxy _ IH]; simpl; [reflexivity|].
  rewrite Hxy; simpl; rewrite IH; reflexivity.
Qed.

Lemma mapR_length {A B} (g : A -> result B) l l' :
  mapR g l = Ok l' -> List.length l' = List.length l.
Proof.
  intros H; apply mapR_Forall2 in H; induction H; simpl; congruence.
Qed.

(** Membership of a string in a concrete list of distinct strings. *)
Ltac not_in_strings :=
  let H := fresh "H" in
  intros H; cbn in H; repeat (destruct H as [H|H]; [discriminate|]); exact H.

(** ** Lemmas on [unique_aux] (pandas [unique]) *)

Lemma unique_aux_In {A} dec (seen l : list A) x :
  In x (unique_aux dec seen l) <-> In x l /\ ~ In x seen.
Proof.
  revert seen; induction l as [|y t IH]; intros seen; simpl.
  - tauto.
  - destruct (in_dec dec y seen) as [Hy|Hy].
    + rewrite IH; split; [tauto|].
      intros [[<-|Ht] Hn]; [contradiction|tauto].
    + simpl; rewrite IH; simpl.
      destruct (dec y x) as [->|Hne]; [tauto|].
      split.
      * intros [Hc|[Ht Hn]]; [congruence|tauto].
      * intros [[Hc|Ht] Hn]; [congruence|right; split; [assumption|]].
        intros [Hc|Hc]; [congruence|contradiction].
Qed.

Lemma unique_aux_NoDup {A} dec (seen l : list A) : NoDup (unique_aux dec seen l).
Proof.
  revert seen; induction l as [|y t IH]; intros seen; simpl; [constructor|].
  destruct (in_dec dec y seen); [apply IH|].
  constructor; [|apply IH].
  rewrite unique_aux_In; simpl; tauto.
Qed.

Lemma in_dec_ext {A B} dec (x : A) (a b : list A) (u v : B) :
  (In x a <-> In x b) ->
  (if in_dec dec x a then u else v) = (if in_dec dec x b then u else v).
Proof.
  intros H; destruct (in_dec dec x a), (in_dec dec x b); tauto.
Qed.

Lemma unique_aux_snoc {A} dec (seen pre : list A) x :
  unique_aux dec seen (pre ++ [x]) =
  (unique_aux dec seen pre ++ (if in_dec dec x (seen ++ pre) then [] else [x]))%list.
Proof.
  revert seen; induction pre as [|y t IH]; intros seen; simpl.
  - rewrite app_nil_r; destruct (in_dec dec x seen); reflexivity.
  - destruct (in_dec dec y seen) as [Hy|Hy].
    + rewrite IH; f_equal; apply in_dec_ext.
      rewrite !in_app_iff; simpl; split; [tauto|].
      intros [H|[<-|H]]; tauto.
    + simpl; rewrite IH; f_equal; f_equal; apply in_dec_ext.
      rewrite !in_app_iff; simpl; tauto.
Qed.

(** ** Lemmas on column reads and writes *)

Lemma lookup_set_col_aux n k v cs :
  lookup_col n (set_col_aux k v cs) =
  if String.eqb k n then Some v else lookup_col n cs.
Proof.
  induction cs as [|[m c] t IH]; simpl.
  - destruct (String.eqb k n); reflexivity.
  - destruct (String.eqb m k) eqn:Hmk; simpl.
    + apply String.eqb_eq in Hmk; subst m.
      destruct (String.eqb k n); reflexivity.
    + rewrite IH.
      destruct (String.eqb k n) eqn:Hkn, (String.eqb m n) eqn:Hmn; try reflexivity.
      apply String.eqb_eq in Hkn, Hmn; subst; rewrite String.eqb_refl in Hmk.
      discriminate.
Qed.

Lemma lookup_col_In n cs c : lookup_col n cs = Some c -> In n (map fst cs).
Proof.
  induction cs as [|[m c'] t IH]; simpl; [discriminate|].
  destruct (String.eqb m n) eqn:E; [apply String.eqb_eq in E; auto|auto].
Qed.

Lemma names_set_col_aux k v cs :
  In k (map fst cs) -> map fst (set_col_aux k v cs) = map fst cs.
Proof.
  induction cs as [|[m c] t IH]; simpl; [tauto|].
  destruct (String.eqb m k) eqn:E; simpl; [reflexivity|].
  intros [->|H]; [rewrite String.eqb_refl in E; discriminate|].
  rewrite IH; auto.
Qed.

Lemma apply_writes_index df ws : index (apply_writes df ws) = index df.
Proof.
  revert df; induction ws as [|[k v] t IH]; intros df; simpl; [reflexivity|].
  rewrite IH; reflexivity.
Qed.

Lemma apply_writes_names df ws :
  Forall (fun w => In (fst w) (col_names df)) ws ->
  col_names (apply_writes df ws) = col_names df.
Proof.
  revert df; induction ws as [|[k v] t IH]; intros df H; simpl; [reflexivity|].
  inversion H as [|? ? Hk Ht]; subst; simpl in Hk.
  assert (Hn : col_names (set_col df k v) = col_names df)
    by (unfold col_names, set_col; simpl; apply names_set_col_aux; exact Hk).
  rewrite IH; [exact Hn|].
  rewrite Hn; exact Ht.
Qed.

Lemma apply_writes_lookup df ws n :
  NoDup (map fst ws) ->
  lookup_col n (cols (apply_writes df ws)) =
  match assoc n ws with Some v => Some v | None => lookup_col n (cols df) end.
Proof.
  revert df; induction ws as [|[k v] t IH]; intros df Hnd; simpl; [reflexivity|].
  inversion Hnd as [|? ? Hk Ht]; subst.
  rewrite IH by exact Ht; unfold set_col; simpl.
  rewrite lookup_set_col_aux.
  destruct (String.eqb k n) eqn:E.
  - apply String.eqb_eq in E; subst k.
    destruct (assoc n t) eqn:Ha; [|reflexivity].
    exfalso; apply Hk; clear -Ha.
    induction t as [|[m w] t IH]; simpl in *; [discriminate|].
    destruct (String.eqb m n) eqn:E; [left; apply String.eqb_eq; exact E|right; auto].
  - destruct (assoc n t); reflexivity.
Qed.

(** ** What a successful calibration stores *)

Lemma set_scalers_ok df f f' u :
  set_scalers df f = (f', Ok u) ->
  exists ids data rs tdata ts cats,
    get_col df "id" = Ok ids /\
    values df real_inputs = Ok data /\ scaler_fit data = Ok rs /\
    values df ["rolling_volatility"] = Ok tdata /\ scaler_fit tdata = Ok ts /\
    mapR (fit_categorical df) categorical_inputs = Ok cats /\
    f' = mk_formatter (Some (pd_unique ids)) (Some rs) (Some (map fst cats))
                      (Some ts) (Some (map snd cats)) (time_steps f)
                      (num_encoder_steps f).
Proof.
  unfold set_scalers, bind, lift, modify; cbn -[categorical_inputs real_inputs values get_col].
  destruct (get_col df "id") as [ids|e] eqn:E1; [|discriminate].
  destruct (values df real_inputs) as [data|e] eqn:E2; [|discriminate].
  destruct (scaler_fit data) as [rs|e] eqn:E3; [|discriminate].
  destruct (values df ["rolling_volatility"]) as [tdata|e] eqn:E4; [|discriminate].
  destruct (scaler_fit tdata) as [ts|e] eqn:E5; [|discriminate].
  destruct (mapR (fit_categorical df) categorical_inputs) as [cats|e] eqn:E6;
    [|discriminate].
  intros H; inversion H; subst.
  exists ids, data, rs, tdata, ts, cats; tauto.
Qed.

Lemma set_scalers_identifiers df f ids :
  get_col df "id" = Ok ids ->
  identifiers (fst (set_scalers df f)) = Some (pd_unique ids).
Proof.
  intros Hid; unfold set_scalers, bind, lift, modify;
  cbn -[categorical_inputs real_inputs values get_col]; rewrite Hid.
  destruct (values df real_inputs) as [data|e]; [|reflexivity].
  destruct (scaler_fit data) as [rs|e]; [|reflexivity].
  destruct (values df ["rolling_volatility"]) as [tdata|e]; [|reflexivity].
  destruct (scaler_fit tdata) as [ts|e]; [|reflexivity].
  destruct (mapR (fit_categorical df) categorical_inputs) as [cats|e]; reflexivity.
Qed.

Lemma handle_zeros_in_scale_neq s : handle_zeros_in_scale s <> 0%R.
Proof.
  unfold handle_zeros_in_scale; destruct (Req_EM_T s 0); [lra|assumption].
Qed.

Lemma values_single df n cs :
  values df [n] = Ok cs -> exists c, cs = [c].
Proof.
  unfold values; simpl.
  destruct (get_col df n) as [c|e]; simpl; [|discriminate].
  destruct (to_floats c) as [r|e]; simpl; [|discriminate].
  intros H; inversion H; eauto.
Qed.

(** The target scaler is a one-feature scaler with a non-zero scale. *)
Lemma set_scalers_target df f f' u :
  set_scalers df f = (f', Ok u) ->
  exists c, values df ["rolling_volatility"] = Ok [c] /\ c <> [] /\
    target_scaler f' =
      Some (mk_scaler [meanR c] [handle_zeros_in_scale (sqrt (varR c))]).
Proof.
  intros H; apply set_scalers_ok in H.
  destruct H as (ids & data & rs & tdata & ts & cats & _ & _ & _ & Ht & Hfit & _ & ->).
  destruct (values_single _ _ _ Ht) as [c ->].
  exists c; split; [exact Ht|].
  destruct c as [|x c]; simpl in Hfit; [discriminate|].
  inversion Hfit; subst; split; [discriminate|reflexivity].
Qed.

Lemma unique_aux_app {A} dec (seen a b : list A) :
  exists seen', unique_aux dec seen (a ++ b) =
                (unique_aux dec seen a ++ unique_aux dec seen' b)%list.
Proof.
  revert seen; induction a as [|y t IH]; intros seen; simpl.
  - exists seen; reflexivity.
  - destruct (in_dec dec y seen).
    + apply IH.
    + destruct (IH (y :: seen)) as [s' Hs]; exists s'; rewrite Hs; reflexivity.
Qed.

(** ** Claims *)






(** C10: after [set_scalers T] (as soon as the identifier column has been
    read) the [identifiers] field holds the distinct values of the
    identifier column of [T] without repetition, each once, in order of first
    appearance: the list begins with the distinct values of any prefix of
    the column, followed by the next value if that value is new. *)
Theorem set_scalers_identifiers_first_appearance df f ids :
  get_col df "id" = Ok ids ->
  identifiers (fst (set_scalers df f)) = Some (pd_unique ids) /\
  NoDup (pd_unique ids) /\
  (forall x, In x (pd_unique ids) <-> In x ids) /\
  (forall pre x post, ids = (pre ++ x :: post)%list ->
     exists rest, pd_unique ids =
       (pd_unique pre ++ (if in_dec cell_eq_dec x pre then [] else [x]) ++ rest)%list) /\
  pd_unique [] = [] /\
  (forall pre x, pd_unique (pre ++ [x]) =
     if in_dec cell_eq_dec x pre then pd_unique pre else (pd_unique pre ++ [x])%list).
Proof.
  intros Hid; split; [apply set_scalers_identifiers; exact Hid|].
  split; [apply unique_aux_NoDup|].
  split; [intros x; unfold pd_unique; rewrite unique_aux_In; simpl; tauto|].
  split; [|split; [reflexivity|]].
  - intros pre x post ->.
    unfold pd_unique.
    replace (pre ++ x :: post)%list with ((pre ++ [x]) ++ post)%list
      by (rewrite <- app_assoc; reflexivity).
    destruct (unique_aux_app cell_eq_dec [] (pre ++ [x]) post) as [s' ->].
    rewrite unique_aux_snoc; simpl.
    exists (unique_aux cell_eq_dec s' post); rewrite <- app_assoc; reflexivity.
  - intros pre x; unfold pd_unique; rewrite unique_aux_snoc; simpl.
    destruct (in_dec cell_eq_dec x pre); [apply app_nil_r|reflexivity].
Qed.

Lemma format_loop_none predictions names output :
  format_loop None predictions names output =
  if forallb reserved names then Ok output else Err AttributeError.
Proof.
  induction names as [|col rest IH]; simpl; [reflexivity|].
  destruct (reserved col); simpl; [exact IH|reflexivity].
Qed.

(** C3 (amended): on a freshly constructed formatter [transform_inputs]
    always fails with "Scalers have not been set!", while
    [format_predictions] has no such check: it fails (on the unset target
    scaler) as soon as the predictions have a column other than
    'forecast_time' and 'identifier', and otherwise returns the copy. *)
Theorem uncalibrated_formatter_errors df predictions :
  transform_inputs df init = (init, Err ScalersNotSet) /\
  ((exists col, In col (col_names predictions) /\ reserved col = false) ->
     format_predictions predictions init = (init, Err AttributeError)) /\
  (forallb reserved (col_names predictions) = true ->
     format_predictions predictions init = (init, Ok (copy predictions))).
Proof.
  split; [reflexivity|].
  unfold format_predictions, bind, get, lift; simpl; rewrite format_loop_none.
  split.
  - intros (col & Hin & Hr).
    destruct (forallb reserved (col_names predictions)) eqn:E; [|reflexivity].
    rewrite forallb_forall in E; rewrite (E col Hin) in Hr; discriminate.
  - intros ->; reflexivity.
Qed.


(** ** The order on strings and [np.unique] *)

Lemma str_lt_trans a b c : str_lt a b -> str_lt b c -> str_lt a c.
Proof.
  unfold str_lt; revert b c.
  induction a as [|x a IH]; intros [|y b] [|z c]; simpl; try discriminate; auto.
  unfold Ascii.compare.
  destruct (N.compare_spec (N_of_ascii x) (N_of_ascii y)) as [Hxy|Hxy|Hxy];
    destruct (N.compare_spec (N_of_ascii y) (N_of_ascii z)) as [Hyz|Hyz|Hyz];
    intros H1 H2; try discriminate.
  - rewrite Hxy, Hyz, N.compare_refl; eapply IH; eassumption.
  - replace (N.compare (N_of_ascii x) (N_of_ascii z)) with Lt
      by (symmetry; apply N.compare_lt_iff; lia); reflexivity.
  - replace (N.compare (N_of_ascii x) (N_of_ascii z)) with Lt
      by (symmetry; apply N.compare_lt_iff; lia); reflexivity.
  - replace (N.compare (N_of_ascii x) (N_of_ascii z)) with Lt
      by (symmetry; apply N.compare_lt_iff; lia); reflexivity.
Qed.

Lemma str_lt_irrefl a : ~ str_lt a a.
Proof.
  unfold str_lt; intros H.
  pose proof (String.compare_antisym a a) as Ha; rewrite H in Ha; discriminate.
Qed.

Lemma str_lt_total a b : a <> b -> str_lt a b \/ str_lt b a.
Proof.
  unfold str_lt; intros Hne.
  destruct (String.compare a b) eqn:E.
  - apply String.compare_eq_iff in E; contradiction.
  - left; reflexivity.
  - right; rewrite String.compare_antisym, E; reflexivity.
Qed.

Lemma insert_sorted_In s l z : In z (insert_sorted s l) <-> s = z \/ In z l.
Proof.
  induction l as [|x t IH]; simpl; [tauto|].
  destruct (String.compare s x) eqn:E; simpl.
  - apply String.compare_eq_iff in E; subst x; tauto.
  - tauto.
  - rewrite IH; tauto.
Qed.

Lemma insert_sorted_HdRel x s l :
  HdRel str_lt x l -> str_lt x s -> HdRel str_lt x (insert_sorted s l).
Proof.
  destruct l as [|y t]; simpl; intros Hh Hxs; [constructor; exact Hxs|].
  destruct (String.compare s y); constructor; try exact Hxs; inversion Hh; assumption.
Qed.

Lemma insert_sorted_Sorted s l : Sorted str_lt l -> Sorted str_lt (insert_sorted s l).
Proof.
  induction l as [|y t IH]; simpl; intros Hs; [repeat constructor|].
  apply Sorted_inv in Hs; destruct Hs as [Ht Hh].
  destruct (String.compare s y) eqn:E.
  - constructor; assumption.
  - constructor; [constructor; assumption|constructor; exact E].
  - constructor; [apply IH; exact Ht|].
    apply insert_sorted_HdRel; [exact Hh|].
    unfold str_lt; rewrite String.compare_antisym, E; reflexivity.
Qed.

Lemma np_unique_In l z : In z (np_unique l) <-> In z l.
Proof.
  induction l as [|x t IH]; simpl; [tauto|].
  rewrite insert_sorted_In, IH; split; intros [H|H]; auto.
Qed.

Lemma np_unique_sorted l : StronglySorted str_lt (np_unique l).
Proof.
  apply Sorted_StronglySorted; [intros a b c; apply str_lt_trans|].
  induction l as [|x t IH]; simpl; [constructor|].
  apply insert_sorted_Sorted; exact IH.
Qed.

Lemma sorted_same_elements l1 l2 :
  StronglySorted str_lt l1 -> StronglySorted str_lt l2 ->
  (forall x, In x l1 <-> In x l2) -> l1 = l2.
Proof.
  revert l2; induction l1 as [|a t1 IH]; intros [|b t2] H1 H2 Hx.
  - reflexivity.
  - exfalso; apply (proj2 (Hx b)); left; reflexivity.
  - exfalso; apply (proj1 (Hx a)); left; reflexivity.
  - apply StronglySorted_inv in H1, H2.
    destruct H1 as [S1 F1], H2 as [S2 F2].
    rewrite Forall_forall in F1, F2.
    assert (Hab : a = b).
    { destruct (string_dec a b) as [|Hne]; [assumption|exfalso].
      assert (Ha : In a t2).
      { destruct (proj1 (Hx a) (or_introl eq_refl)) as [E|E]; [congruence|exact E]. }
      assert (Hb : In b t1).
      { destruct (proj2 (Hx b) (or_introl eq_refl)) as [E|E]; [congruence|exact E]. }
      apply (str_lt_irrefl a), (str_lt_trans a b a); [apply F1|apply F2]; assumption. }
    subst b; f_equal; apply IH; [exact S1|exact S2|].
    intros x; split; intros Hin.
    + destruct (proj1 (Hx x) (or_intror Hin)) as [E|E]; [|exact E].
      subst; exfalso; apply (str_lt_irrefl x), F1, Hin.
    + destruct (proj2 (Hx x) (or_intror Hin)) as [E|E]; [|exact E].
      subst; exfalso; apply (str_lt_irrefl x), F2, Hin.
Qed.

Lemma nunique_same_elements l1 l2 :
  (forall x, In x l1 <-> In x l2) -> nunique l1 = nunique l2.
Proof.
  intros Hx; unfold nunique; apply Nat.le_antisymm; apply NoDup_incl_length;
    try apply unique_aux_NoDup; intros z; rewrite !unique_aux_In, Hx; tauto.
Qed.

Lemma categorical_inputs_eq : categorical_inputs = ["STOCK"].
Proof. reflexivity. Qed.

Lemma set_scalers_categorical df f f' u :
  set_scalers df f = (f', Ok u) ->
  exists c, get_col df "STOCK" = Ok c /\
    cat_scalers f' = Some [("STOCK", label_encoder_fit (map py_str c))] /\
    num_classes_per_cat_input f' = Some [nunique (map py_str c)].
Proof.
  intros H; apply set_scalers_ok in H.
  destruct H as (ids & data & rs & tdata & ts & cats & _ & _ & _ & _ & _ & Hc & ->).
  rewrite categorical_inputs_eq in Hc; simpl in Hc; unfold fit_categorical in Hc.
  destruct (get_col df "STOCK") as [c|e]; simpl in Hc; [|discriminate].
  inversion Hc; subst; exists c; repeat split.
Qed.

(** C9: calibration is deterministic on categorical columns: the label
    mapping (the sorted distinct labels, a label's code being its position)
    and the number of classes depend only on the set of distinct stringified
    labels of the calibration table, so calibrating on identical tables, in
    two runs or one after the other on the same formatter, gives identical
    mappings and counts. *)
Theorem set_scalers_categorical_deterministic cal1 cal2 f1 f2 g1 g2 u1 u2 c1 c2 :
  set_scalers cal1 f1 = (g1, Ok u1) ->
  set_scalers cal2 f2 = (g2, Ok u2) ->
  get_col cal1 "STOCK" = Ok c1 ->
  get_col cal2 "STOCK" = Ok c2 ->
  (forall s, In s (map py_str c1) <-> In s (map py_str c2)) ->
  cat_scalers g1 = cat_scalers g2 /\
  num_classes_per_cat_input g1 = num_classes_per_cat_input g2 /\
  cat_scalers g1 = Some [("STOCK", mk_label_encoder (np_unique (map py_str c1)))] /\
  StronglySorted str_lt (np_unique (map py_str c1)).
Proof.
  intros H1 H2 Hc1 Hc2 Hs.
  destruct (set_scalers_categorical _ _ _ _ H1) as (c1' & Hc1' & Hcs1 & Hn1).
  destruct (set_scalers_categorical _ _ _ _ H2) as (c2' & Hc2' & Hcs2 & Hn2).
  rewrite Hc1 in Hc1'; rewrite Hc2 in Hc2'.
  inversion Hc1'; inversion Hc2'; subst c1' c2'.
  rewrite Hcs1, Hcs2, Hn1, Hn2; unfold label_encoder_fit.
  split; [|split; [|split; [reflexivity|apply np_unique_sorted]]].
  - do 4 f_equal; apply sorted_same_elements; try apply np_unique_sorted.
    intros x; rewrite !np_unique_In; apply Hs.
  - do 2 f_equal; apply nunique_same_elements; exact Hs.
Qed.

(** ** What a successful [transform_inputs] writes *)

Lemma transform_writes_ok f df ws :
  transform_writes f df = Ok ws ->
  exists rs data outd w2,
    real_scalers f = Some rs /\
    values df real_inputs = Ok data /\ scaler_transform rs data = Ok outd /\
    mapR (encode_categorical (cat_scalers f) df) categorical_inputs = Ok w2 /\
    ws = (combine real_inputs (map (map VNum) outd) ++ w2)%list.
Proof.
  unfold transform_writes.
  destruct (real_scalers f) as [rs|] eqn:Hr;
    [|destruct (cat_scalers f); cbn -[values real_inputs categorical_inputs]; discriminate].
  cbn -[values real_inputs categorical_inputs scaler_transform encode_categorical].
  replace (match cat_scalers f with Some _ | None => cat_scalers f end) with (cat_scalers f)
    by (destruct (cat_scalers f); reflexivity).
  destruct (values df real_inputs) as [data|e] eqn:Ev; cbn [rbind]; [|discriminate].
  destruct (scaler_transform rs data) as [outd|e] eqn:Et; cbn [rbind]; [|discriminate].
  destruct (mapR (encode_categorical (cat_scalers f) df) categorical_inputs) as [w2|e] eqn:Ew;
    cbn [rbind]; [|discriminate].
  intros H; inversion H; subst ws.
  exists rs, data, outd, w2.
  split; [|split; [|split; [|split]]]; first [reflexivity|assumption].
Qed.

Lemma encode_categorical_names cso df cs w2 :
  mapR (encode_categorical cso df) cs = Ok w2 ->
  map fst w2 = cs /\ Forall (fun n => exists c, get_col df n = Ok c) cs.
Proof.
  intros H; apply mapR_Forall2 in H; induction H as [|n w ns ws Hw _ IH];
    simpl; [split; constructor|].
  destruct IH as [IH1 IH2].
  unfold encode_categorical in Hw.
  destruct (get_col df n) as [c|e] eqn:Hc; cbn [rbind] in Hw; [|discriminate].
  destruct cso as [cs0|]; cbn [rbind of_option] in Hw; [|discriminate].
  destruct (assoc n cs0) as [enc|]; cbn [rbind of_option] in Hw; [|discriminate].
  destruct (label_encoder_transform enc (map py_str c)); cbn [rbind] in Hw; [|discriminate].
  inversion Hw; subst w; simpl; rewrite IH1; split; [reflexivity|constructor; eauto].
Qed.

Lemma combine_fst_In {A B} (l1 : list A) (l2 : list B) x :
  In x (map fst (combine l1 l2)) -> In x l1.
Proof.
  revert l2; induction l1 as [|a t IH]; intros [|b l2]; simpl; try tauto.
  intros [H|H]; [left; exact H|right; eapply IH; exact H].
Qed.

Lemma combine_fst_NoDup {A B} (l1 : list A) (l2 : list B) :
  NoDup l1 -> NoDup (map fst (combine l1 l2)).
Proof.
  revert l2; induction l1 as [|a t IH]; intros [|b l2] Hnd; simpl; try constructor;
    inversion Hnd; subst.
  - intros H; apply combine_fst_In in H; contradiction.
  - apply IH; assumption.
Qed.

Lemma assoc_combine_nth {B} (l1 : list string) (l2 : list B) rest j n v :
  NoDup l1 -> nth_error l1 j = Some n -> nth_error l2 j = Some v ->
  assoc n (combine l1 l2 ++ rest)%list = Some v.
Proof.
  revert l2 j; induction l1 as [|a t IH]; intros [|b l2] [|j] Hnd H1 H2;
    simpl in *; try discriminate.
  - inversion H1; inversion H2; subst; rewrite String.eqb_refl; reflexivity.
  - inversion Hnd as [|? ? Ha Ht]; subst.
    destruct (String.eqb a n) eqn:E.
    + apply String.eqb_eq in E; subst; exfalso; apply Ha.
      eapply nth_error_In; exact H1.
    + eapply IH; eassumption.
Qed.

Lemma assoc_None {A} n (ws : list (string * A)) :
  ~ In n (map fst ws) -> assoc n ws = None.
Proof.
  induction ws as [|[k v] t IH]; simpl; intros H; [reflexivity|].
  destruct (String.eqb k n) eqn:E; [apply String.eqb_eq in E; tauto|].
  apply IH; tauto.
Qed.

Lemma mapR_nth_error {A B} (g : A -> result B) l l' j x :
  mapR g l = Ok l' -> nth_error l j = Some x ->
  exists y, nth_error l' j = Some y /\ g x = Ok y.
Proof.
  intros H; apply mapR_Forall2 in H; revert j.
  induction H as [|a b t t' Hab _ IH]; intros [|j] Hj; simpl in *; try discriminate.
  - inversion Hj; subst; eauto.
  - apply IH; exact Hj.
Qed.

Lemma values_nth df names data j n :
  values df names = Ok data -> nth_error names j = Some n ->
  exists ds, nth_error data j = Some ds /\ values df [n] = Ok [ds].
Proof.
  unfold values; destruct (mapR (get_col df) names) as [cs|e] eqn:Hcs;
    cbn [rbind]; [|discriminate].
  intros Hd Hn.
  destruct (mapR_nth_error _ _ _ _ _ Hcs Hn) as (c & Hc & Hg).
  destruct (mapR_nth_error _ _ _ _ _ Hd Hc) as (ds & Hds & Hf).
  exists ds; split; [exact Hds|]; simpl; rewrite Hg; simpl; rewrite Hf; reflexivity.
Qed.

Lemma values_names df names data :
  values df names = Ok data -> Forall (fun n => In n (col_names df)) names.
Proof.
  unfold values; destruct (mapR (get_col df) names) as [cs|e] eqn:Hcs;
    cbn [rbind]; [|discriminate].
  intros _; apply mapR_Forall2 in Hcs; induction Hcs as [|n c ns cs' Hc _ IH];
    constructor; [|exact IH].
  unfold get_col in Hc; destruct (lookup_col n (cols df)) eqn:E;
    [|cbn in Hc; discriminate].
  eapply lookup_col_In; exact E.
Qed.

Lemma standardize_columns_nth (data : list (list R)) ms ss j ds m s :
  nth_error data j = Some ds -> nth_error ms j = Some m -> nth_error ss j = Some s ->
  nth_error (map (fun '(c, (m, s)) => map (fun x => (x - m) / s)%R c)
                 (combine data (combine ms ss))) j =
  Some (map (fun x => (x - m) / s)%R ds).
Proof.
  revert j ms ss; induction data as [|d t IH]; intros [|j] [|m' ms] [|s' ss] Hd Hm Hs;
    simpl in *; try discriminate.
  - inversion Hd; inversion Hm; inversion Hs; subst; reflexivity.
  - apply IH; assumption.
Qed.

Lemma scaler_transform_nth rs data outd j ds m s :
  scaler_transform rs data = Ok outd ->
  nth_error data j = Some ds -> nth_error (mean_ rs) j = Some m ->
  nth_error (scale_ rs) j = Some s ->
  nth_error outd j = Some (map (fun x => (x - m) / s)%R ds).
Proof.
  unfold scaler_transform, check_array.
  destruct data as [|[|x0 d0] t0]; cbn [rbind]; try discriminate.
  destruct (Nat.eqb _ _); [|discriminate].
  intros H; injection H as <-; apply standardize_columns_nth.
Qed.

Lemma real_inputs_NoDup : NoDup (real_inputs ++ categorical_inputs)%list.
Proof.
  cbn; repeat (apply NoDup_cons; [not_in_strings|]); apply NoDup_nil.
Qed.

(** The column names [transform_inputs] writes, all read from its input. *)
Lemma transform_writes_names f df ws :
  transform_writes f df = Ok ws ->
  NoDup (map fst ws) /\ Forall (fun w => In (fst w) (col_names df)) ws /\
  (forall n, In n (map fst ws) -> In n real_inputs \/ In n categorical_inputs).
Proof.
  intros H; destruct (transform_writes_ok _ _ _ H) as (rs & data & outd & w2 & _ & Hv & _ & Hw & ->).
  destruct (encode_categorical_names _ _ _ _ Hw) as [Hw2 Hcs].
  pose proof real_inputs_NoDup as Hnd.
  rewrite map_app, Hw2; split; [|split].
  - apply NoDup_app.
    + apply combine_fst_NoDup; eapply NoDup_app_remove_r; exact Hnd.
    + eapply NoDup_app_remove_l; exact Hnd.
    + intros a Ha Hb; apply combine_fst_In in Ha.
      eapply NoDup_app_remove_l in Hnd.
      revert Ha Hb; cbn; intros Ha Hb; repeat destruct Ha as [Ha|Ha]; subst;
        repeat destruct Hb as [Hb|Hb]; try discriminate; contradiction.
  - apply Forall_app; split.
    + apply values_names in Hv; rewrite Forall_forall in Hv |- *.
      intros [n v] Hin; simpl; apply Hv.
      apply (in_map fst) in Hin; apply combine_fst_In in Hin; exact Hin.
    + rewrite <- Hw2 in Hcs; rewrite Forall_map in Hcs.
      eapply Forall_impl; [|exact Hcs]; intros [n v] [c Hc]; simpl in Hc |- *.
      unfold get_col in Hc; destruct (lookup_col n (cols df)) eqn:E;
        [|cbn in Hc; discriminate].
      eapply lookup_col_In; exact E.
  - intros n Hn; apply in_app_iff in Hn; destruct Hn as [Hn|Hn];
      [left; eapply combine_fst_In; exact Hn|right; exact Hn].
Qed.

Lemma transform_inputs_ok f df out :
  snd (transform_inputs df f) = Ok out ->
  exists ws, transform_writes f df = Ok ws /\ out = apply_writes (copy df) ws /\
             transform_inputs df f = (f, Ok out).
Proof.
  unfold transform_inputs, bind, get, lift, ret; simpl.
  destruct (transform_writes f df) as [ws|e]; simpl; [|discriminate].
  intros H; inversion H; subst; eauto.
Qed.

Lemma values_length df names data :
  values df names = Ok data -> List.length data = List.length names.
Proof.
  unfold values; destruct (mapR (get_col df) names) as [cs|e] eqn:Hcs;
    cbn [rbind]; [|discriminate].
  intros Hd; rewrite (mapR_length _ _ _ Hd); exact (mapR_length _ _ _ Hcs).
Qed.

Lemma index_of_None s l : index_of s l = None <-> ~ In s l.
Proof.
  induction l as [|x t IH]; simpl; [tauto|].
  destruct (String.eqb x s) eqn:E.
  - apply String.eqb_eq in E; subst; split; [discriminate|].
    intros H; exfalso; apply H; left; reflexivity.
  - apply String.eqb_neq in E; destruct (index_of s t) eqn:E2; simpl.
    + split; [discriminate|]; intros H; exfalso.
      destruct (in_dec string_dec s t) as [Hi|Hi]; [apply H; right; exact Hi|].
      apply IH in Hi; discriminate.
    + split; [|reflexivity]; intros _ [H|H]; [contradiction|].
      exact (proj1 IH eq_refl H).
Qed.

Lemma label_encoder_transform_unseen enc c :
  (exists x, In x c /\ ~ In (py_str x) (classes_ enc)) ->
  label_encoder_transform enc (map py_str c) = Err UnseenLabel.
Proof.
  unfold label_encoder_transform; induction c as [|y t IH]; simpl.
  - intros (x & [] & _).
  - intros (x & Hx & Hn).
    destruct (index_of (py_str y) (classes_ enc)) as [k|] eqn:E; cbn [of_option rbind];
      [|reflexivity].
    destruct Hx as [->|Hx].
    + apply index_of_None in Hn; congruence.
    + rewrite IH by eauto; reflexivity.
Qed.

Lemma label_encoder_transform_known enc c :
  (forall x, In x c -> In (py_str x) (classes_ enc)) ->
  exists ks, label_encoder_transform enc (map py_str c) = Ok ks /\
    Forall2 (fun x k => index_of (py_str x) (classes_ enc) = Some k) c ks.
Proof.
  unfold label_encoder_transform; induction c as [|y t IH]; simpl; intros H.
  - exists []; split; constructor.
  - destruct (index_of (py_str y) (classes_ enc)) as [k|] eqn:E.
    + destruct IH as (ks & Hks & Hf); [intros; apply H; right; assumption|].
      cbn [of_option rbind]; rewrite Hks; exists (k :: ks); split; [reflexivity|].
      constructor; assumption.
    + exfalso; apply index_of_None in E; apply E, H; left; reflexivity.
Qed.

Lemma apply_writes_snoc df ws n v :
  apply_writes df (ws ++ [(n, v)])%list = set_col (apply_writes df ws) n v.
Proof. unfold apply_writes; rewrite fold_left_app; reflexivity. Qed.

Lemma heap_update_last (h : heap) x g :
  heap_update (h ++ [x])%list (List.length h) g = (h ++ [g x])%list.
Proof. induction h as [|y t IH]; simpl; [reflexivity|rewrite IH; reflexivity]. Qed.

Lemma heap_writes_last (h : heap) x ws :
  fold_left (fun h' '(n, v) => heap_update h' (List.length h) (fun fr => set_col fr n v))
            ws (h ++ [x])%list = (h ++ [apply_writes x ws])%list.
Proof.
  revert x; induction ws as [|[n v] t IH]; intros x; simpl; [reflexivity|].
  rewrite heap_update_last; apply IH.
Qed.

(** C1 (amended): [transform_inputs] keeps the row labels and the column
    names, passes the identifier and timestamp columns, and every column
    that is not a feature column of the schema, through unchanged, and
    replaces each real-valued column other than identifier and timestamp,
    the target column 'rolling_volatility' included, by
    [(value - mean) / std] with the real scaler's statistics for that
    column. *)
Theorem transform_inputs_columns f rs df out :
  real_scalers f = Some rs ->
  snd (transform_inputs df f) = Ok out ->
  In "rolling_volatility" real_inputs /\
  index out = index df /\ col_names out = col_names df /\
  get_col out "id" = get_col df "id" /\ get_col out "time" = get_col df "time" /\
  (forall n, ~ In n real_inputs -> ~ In n categorical_inputs ->
     get_col out n = get_col df n) /\
  (forall j n m s, nth_error real_inputs j = Some n ->
     nth_error (mean_ rs) j = Some m -> nth_error (scale_ rs) j = Some s ->
     exists ds, values df [n] = Ok [ds] /\
       get_col out n = Ok (map (fun x => VNum ((x - m) / s)%R) ds)).
Proof.
  intros Hr Hout.
  destruct (transform_inputs_ok _ _ _ Hout) as (ws & Hws & -> & _).
  destruct (transform_writes_names _ _ _ Hws) as (Hnd & Hall & Hnames).
  destruct (transform_writes_ok _ _ _ Hws) as (rs' & data & outd & w2 & Hr' & Hv & Ht & Hw & Heq).
  rewrite Hr in Hr'; inversion Hr'; subst rs'.
  assert (Hother : forall n, ~ In n real_inputs -> ~ In n categorical_inputs ->
                   get_col (apply_writes (copy df) ws) n = get_col df n).
  { intros n H1 H2; unfold get_col; rewrite apply_writes_lookup by exact Hnd.
    rewrite assoc_None; [reflexivity|].
    intros Hin; destruct (Hnames n Hin); contradiction. }
  split; [cbn; tauto|].
  split; [exact (apply_writes_index (copy df) ws)|].
  split; [apply (apply_writes_names (copy df)); exact Hall|].
  split; [apply Hother; not_in_strings|].
  split; [apply Hother; not_in_strings|].
  split; [exact Hother|].
  intros j n m s Hn Hm Hs.
  destruct (values_nth _ _ _ _ _ Hv Hn) as (ds & Hds & Hvn).
  exists ds; split; [exact Hvn|].
  pose proof (scaler_transform_nth _ _ _ _ _ _ _ Ht Hds Hm Hs) as Ho.
  unfold get_col; rewrite apply_writes_lookup by exact Hnd.
  rewrite Heq, (assoc_combine_nth real_inputs (map (map VNum) outd) w2 j n
                  (map VNum (map (fun x => (x - m) / s)%R ds))).
  - simpl; rewrite map_map; reflexivity.
  - eapply NoDup_app_remove_r; exact real_inputs_NoDup.
  - exact Hn.
  - rewrite nth_error_map, Ho; reflexivity.
Qed.

(** C8: [transform_inputs] does not touch its input: run on the frame at
    location [l] of a heap of frames, it leaves every existing location,
    [l] included, as it was, and returns a fresh location holding the
    result (also the result of [transform_inputs] on the frame), which has
    the input's row labels (so its row count) and column names. *)
Theorem transform_inputs_at_no_mutation f h l h' o :
  snd (transform_inputs_at h l f) = Ok (h', o) ->
  fst (transform_inputs_at h l f) = f /\
  o = List.length h /\ o <> l /\
  (forall l', l' < List.length h -> nth_error h' l' = nth_error h l') /\
  exists df out,
    nth_error h l = Some df /\ nth_error h' o = Some out /\
    transform_inputs df f = (f, Ok out) /\
    index out = index df /\ List.length (index out) = List.length (index df) /\
    col_names out = col_names df.
Proof.
  unfold transform_inputs_at, bind, get, lift, ret; simpl.
  destruct (nth_error h l) as [df|] eqn:Hl; simpl; [|discriminate].
  destruct (transform_writes f df) as [ws|e] eqn:Hw; simpl; [|discriminate].
  intros H; inversion H; subst h' o; clear H.
  rewrite heap_writes_last.
  assert (Hlt : l < List.length h) by (apply nth_error_Some; congruence).
  split; [reflexivity|]; split; [reflexivity|]; split; [lia|].
  split; [intros l' Hl'; apply nth_error_app1; exact Hl'|].
  exists df, (apply_writes (copy df) ws); split; [reflexivity|].
  split; [rewrite nth_error_app2, Nat.sub_diag by lia; reflexivity|].
  split; [unfold transform_inputs, bind, get, lift, ret; simpl;
          first [reflexivity|rewrite Hw; reflexivity]|].
  rewrite apply_writes_index; split; [reflexivity|]; split; [reflexivity|].
  apply (apply_writes_names (copy df)); apply (transform_writes_names _ _ _ Hw).
Qed.

(** C7: for a calibrated formatter, with the label mapping [enc] built for
    'STOCK', [transform_inputs] on a table with at least one row and numeric
    real-valued columns fails with the unseen-label error when some value
    of 'STOCK' stringifies to a label outside the mapping; when all of them
    are in it, the column is replaced by their integer codes (positions in
    the mapping). (On a table with no row the real scaler's [transform]
    already fails.) *)
Theorem transform_inputs_unseen_label cal f0 f u :
  set_scalers cal f0 = (f, Ok u) ->
  exists enc, cat_scalers f = Some [("STOCK", enc)] /\
  forall df data c,
    values df real_inputs = Ok data -> hd [] data <> [] -> get_col df "STOCK" = Ok c ->
    ((exists x, In x c /\ ~ In (py_str x) (classes_ enc)) ->
       transform_inputs df f = (f, Err UnseenLabel)) /\
    ((forall x, In x c -> In (py_str x) (classes_ enc)) ->
       exists out col, transform_inputs df f = (f, Ok out) /\
         get_col out "STOCK" = Ok col /\
         Forall2 (fun x y => exists k,
                    index_of (py_str x) (classes_ enc) = Some k /\ y = VNum (INR k)) c col).
Proof.
  intros Hcal.
  destruct (set_scalers_categorical _ _ _ _ Hcal) as (c0 & _ & Hcs & _).
  destruct (set_scalers_ok _ _ _ _ Hcal)
    as (ids & data0 & rs & tdata & ts & cats & _ & Hv0 & Hfit & _ & _ & _ & Hf).
  exists (label_encoder_fit (map py_str c0)); split; [exact Hcs|].
  set (enc := label_encoder_fit (map py_str c0)) in *.
  intros df data c Hv Hne Hc.
  assert (Hlen : Nat.eqb (List.length data) (List.length (mean_ rs)) = true).
  { apply Nat.eqb_eq; rewrite (values_length _ _ _ Hv).
    destruct data0 as [|d0 t0]; [discriminate|].
    destruct d0; [discriminate|]; inversion Hfit; subst rs; simpl.
    rewrite length_map; symmetry; exact (values_length _ _ _ Hv0). }
  assert (Htw : transform_writes f df =
    (out <-? scaler_transform rs data ;;
     w2 <-? mapR (encode_categorical (Some [("STOCK", enc)]) df) ["STOCK"] ;;
     Ok (combine real_inputs (map (map VNum) out) ++ w2)%list)).
  { unfold transform_writes; rewrite Hcs.
    replace (real_scalers f) with (Some rs) by (rewrite Hf; reflexivity).
    cbn -[values real_inputs scaler_transform encode_categorical]; rewrite Hv.
    reflexivity. }
  unfold scaler_transform, check_array in Htw.
  destruct data as [|[|x0 d0] t0]; [exfalso; apply Hne; reflexivity|
                                    exfalso; apply Hne; reflexivity|].
  cbn [rbind] in Htw; rewrite Hlen in Htw; cbn [rbind mapR] in Htw.
  unfold encode_categorical in Htw; rewrite Hc in Htw.
  cbn [rbind of_option assoc] in Htw; rewrite String.eqb_refl in Htw.
  cbn [rbind of_option] in Htw.
  split.
  - intros Hx; rewrite (label_encoder_transform_unseen enc c Hx) in Htw.
    unfold transform_inputs, bind, get, lift, ret; simpl; rewrite Htw; reflexivity.
  - intros Hx; destruct (label_encoder_transform_known enc c Hx) as (ks & Hks & Hf2).
    rewrite Hks in Htw; cbn [rbind] in Htw.
    set (ws0 := combine real_inputs _) in Htw.
    exists (apply_writes (copy df) (ws0 ++ [("STOCK", map (fun k => VNum (INR k)) ks)])%list),
           (map (fun k => VNum (INR k)) ks).
    split; [unfold transform_inputs, bind, get, lift, ret; simpl; rewrite Htw; reflexivity|].
    split.
    + rewrite apply_writes_snoc; unfold get_col, set_col; simpl.
      rewrite lookup_set_col_aux, String.eqb_refl; reflexivity.
    + clear -Hf2; induction Hf2; simpl; constructor; eauto.
Qed.

(** ** Splitting *)

Lemma ltb_R_spec a b : ltb_R a b = true <-> (a < b)%R.
Proof. unfold ltb_R; destruct (Rlt_dec a b); split; intros; try discriminate; tauto. Qed.

Lemma ltb_R_true a b : (a < b)%R -> ltb_R a b = true.
Proof. apply ltb_R_spec. Qed.

Lemma ltb_R_false a b : (b <= a)%R -> ltb_R a b = false.
Proof. unfold ltb_R; destruct (Rlt_dec a b); [lra|reflexivity]. Qed.

Lemma cmp_mask_num p ds : cmp_mask p (map VNum ds) = Ok (map p ds).
Proof.
  unfold cmp_mask; induction ds as [|d t IH]; simpl; [reflexivity|rewrite IH; reflexivity].
Qed.

Lemma and_mask_map (p q : R -> bool) ds :
  and_mask (map p ds) (map q ds) = map (fun d => p d && q d) ds.
Proof. induction ds as [|d t IH]; simpl; [reflexivity|rewrite <- IH; reflexivity]. Qed.

Lemma select_partition {A} (p q r : R -> bool) (ds : list R) (l : list A) :
  List.length l = List.length ds ->
  (forall d, In d ds -> Nat.b2n (p d) + Nat.b2n (q d) + Nat.b2n (r d) = 1) ->
  Permutation l (select (map p ds) l ++ select (map q ds) l ++ select (map r ds) l)%list.
Proof.
  revert l; induction ds as [|d t IH]; intros [|x l] Hlen Hone; simpl in *;
    try discriminate; [constructor|].
  injection Hlen as Hlen.
  assert (IH' := IH l Hlen (fun d' H => Hone d' (or_intror H))).
  specialize (Hone d (or_introl eq_refl)); unfold select in *; simpl.
  destruct (p d), (q d), (r d); simpl in Hone; try discriminate; simpl.
  - constructor; exact IH'.
  - apply Permutation_cons_app; exact IH'.
  - rewrite app_assoc; apply Permutation_cons_app; rewrite <- app_assoc; exact IH'.
Qed.

Lemma scaler_fit_ok data rs :
  scaler_fit data = Ok rs ->
  rs = mk_scaler (map meanR data)
                 (map (fun c => handle_zeros_in_scale (sqrt (varR c))) data).
Proof.
  destruct data as [|[|x c] t]; simpl; try discriminate.
  intros H; inversion H; reflexivity.
Qed.

(** C4 (amended): when [valid_boundary <= test_boundary] and the 'DAY'
    column holds numbers, [split_data] selects train (DAY < valid_boundary),
    valid (valid_boundary <= DAY < test_boundary) and test
    (DAY >= test_boundary) by row masks; every row satisfies exactly one of
    the three conditions, so the row labels of the three parts together are
    a permutation of the input's; calibration runs on train, and the
    transforms of train, valid and test are returned in this order. For
    boundaries (7, 8) and DAY values 5..9, train holds 5 and 6, valid 7, test
    8 and 9. *)
Theorem split_data_partition f df vb tb ds :
  (vb <= tb)%R ->
  get_col df "DAY" = Ok (map VNum ds) ->
  List.length (index df) = List.length ds ->
  let mt := map (fun d => ltb_R d vb) ds in
  let mv := map (fun d => negb (ltb_R d vb) && ltb_R d tb) ds in
  let ms := map (fun d => negb (ltb_R d tb)) ds in
  split_parts df vb tb = Ok (loc df mt, loc df mv, loc df ms) /\
  (forall d b, ltb_R d b = true <-> (d < b)%R) /\
  (forall d, In d ds ->
     Nat.b2n (ltb_R d vb) + Nat.b2n (negb (ltb_R d vb) && ltb_R d tb)
     + Nat.b2n (negb (ltb_R d tb)) = 1) /\
  Permutation (index df)
    (index (loc df mt) ++ index (loc df mv) ++ index (loc df ms))%list /\
  split_data df vb tb f =
    (fst (set_scalers (loc df mt) f),
     match snd (set_scalers (loc df mt) f) with
     | Ok _ => Ok (map transform_inputs [loc df mt; loc df mv; loc df ms])
     | Err e => Err e
     end) /\
  split_parts (mk_frame [0; 1; 2; 3; 4] [("DAY", map VNum [5; 6; 7; 8; 9]%R)]) 7 8 =
    Ok (mk_frame [0; 1] [("DAY", map VNum [5; 6]%R)],
        mk_frame [2] [("DAY", map VNum [7]%R)],
        mk_frame [3; 4] [("DAY", map VNum [8; 9]%R)]).
Proof.
  intros Hle Hday Hlen mt mv ms.
  assert (Hsplit : split_parts df vb tb = Ok (loc df mt, loc df mv, loc df ms)).
  { unfold split_parts; rewrite Hday; cbn [rbind]; rewrite !cmp_mask_num; cbn [rbind].
    rewrite and_mask_map; reflexivity. }
  assert (Hone : forall d, In d ds ->
     Nat.b2n (ltb_R d vb) + Nat.b2n (negb (ltb_R d vb) && ltb_R d tb)
     + Nat.b2n (negb (ltb_R d tb)) = 1).
  { intros d _; unfold ltb_R.
    destruct (Rlt_dec d vb), (Rlt_dec d tb); simpl; try reflexivity; lra. }
  split; [exact Hsplit|].
  split; [exact ltb_R_spec|].
  split; [exact Hone|].
  split; [apply select_partition; assumption|].
  split.
  - unfold split_data, bind, lift, ret; rewrite Hsplit.
    destruct (set_scalers (loc df mt) f) as [f' [u|e]]; reflexivity.
  - unfold split_parts, cmp_mask, and_mask; simpl.
    rewrite (ltb_R_true 5 7), (ltb_R_true 6 7), (ltb_R_false 7 7), (ltb_R_false 8 7),
      (ltb_R_false 9 7), (ltb_R_true 5 8), (ltb_R_true 6 8), (ltb_R_true 7 8),
      (ltb_R_false 8 8), (ltb_R_false 9 8) by lra.
    reflexivity.
Qed.

(** C2: [split_data] calibrates on the training part alone: the part is
    the selection of the rows with DAY < valid_boundary, the formatter's
    state afterwards is that of [set_scalers] on it, so two tables with the
    same training part give the same state whatever their validation and
    test rows; and the stored statistics are the per-column mean and scale
    of the training part's real-valued columns, of its target column, and
    the label mapping of its 'STOCK' column. *)
Theorem split_data_calibrates_on_train f df vb tb tr va te :
  split_parts df vb tb = Ok (tr, va, te) ->
  (exists days m, get_col df "DAY" = Ok days /\
     cmp_mask (fun d => ltb_R d vb) days = Ok m /\ tr = loc df m) /\
  fst (split_data df vb tb f) = fst (set_scalers tr f) /\
  (forall df' va' te', split_parts df' vb tb = Ok (tr, va', te') ->
     fst (split_data df' vb tb f) = fst (split_data df vb tb f)) /\
  (snd (set_scalers tr f) = Ok tt ->
     exists data c stock,
       values tr real_inputs = Ok data /\
       values tr ["rolling_volatility"] = Ok [c] /\
       get_col tr "STOCK" = Ok stock /\
       real_scalers (fst (split_data df vb tb f)) =
         Some (mk_scaler (map meanR data)
                 (map (fun c => handle_zeros_in_scale (sqrt (varR c))) data)) /\
       target_scaler (fst (split_data df vb tb f)) =
         Some (mk_scaler [meanR c] [handle_zeros_in_scale (sqrt (varR c))]) /\
       cat_scalers (fst (split_data df vb tb f)) =
         Some [("STOCK", label_encoder_fit (map py_str stock))]).
Proof.
  intros Hs.
  assert (Hst : forall df', split_parts df' vb tb = Ok (tr, va, te) \/
                  (exists va' te', split_parts df' vb tb = Ok (tr, va', te')) ->
                fst (split_data df' vb tb f) = fst (set_scalers tr f)).
  { intros df' [H|(va' & te' & H)]; unfold split_data, bind, lift, ret; rewrite H;
      destruct (set_scalers tr f) as [f' [u|e]]; reflexivity. }
  split.
  - unfold split_parts in Hs.
    destruct (get_col df "DAY") as [days|e] eqn:Hd; cbn [rbind] in Hs; [|discriminate].
    destruct (cmp_mask (fun d => ltb_R d vb) days) as [m|e] eqn:Hm; cbn [rbind] in Hs;
      [|discriminate].
    destruct (cmp_mask (fun d => negb (ltb_R d vb)) days); cbn [rbind] in Hs; [|discriminate].
    destruct (cmp_mask (fun d => ltb_R d tb) days); cbn [rbind] in Hs; [|discriminate].
    destruct (cmp_mask (fun d => negb (ltb_R d tb)) days); cbn [rbind] in Hs; [|discriminate].
    injection Hs as Htr _ _; exists days, m; split; [reflexivity|].
    split; [first [exact Hm|reflexivity]|symmetry; exact Htr].
  - split; [apply Hst; left; exact Hs|].
    split; [intros df' va' te' H; rewrite (Hst df') by eauto; symmetry; apply Hst; left; exact Hs|].
    intros Hok; rewrite (Hst df) by (left; exact Hs).
    destruct (set_scalers tr f) as [f' r] eqn:Hset; simpl in Hok; subst r.
    simpl.
    destruct (set_scalers_target _ _ _ _ Hset) as (c & Hc & _ & Ht).
    destruct (set_scalers_categorical _ _ _ _ Hset) as (stock & Hstock & Hcat & _).
    destruct (set_scalers_ok _ _ _ _ Hset)
      as (ids & data & rs & tdata & ts & cats & _ & Hv & Hfit & _ & _ & _ & Hf).
    exists data, c, stock; split; [exact Hv|]; split; [exact Hc|]; split; [exact Hstock|].
    split; [rewrite Hf; simpl; rewrite (scaler_fit_ok _ _ Hfit); reflexivity|].
    split; [exact Ht|exact Hcat].
Qed.

(** ** Further properties of the formatter *)

Lemma lookup_col_None n cs : lookup_col n cs = None -> ~ In n (map fst cs).
Proof.
  induction cs as [|[m c] t IH]; simpl; [tauto|].
  destruct (String.eqb m n) eqn:E; [discriminate|].
  apply String.eqb_neq in E; intros H [H'|H']; [contradiction|exact (IH H H')].
Qed.

Lemma lookup_col_Some n cs : In n (map fst cs) -> exists c, lookup_col n cs = Some c.
Proof.
  intros H; destruct (lookup_col n cs) as [c|] eqn:E; [eauto|].
  exfalso; exact (lookup_col_None _ _ E H).
Qed.

Lemma get_col_missing df n : ~ In n (col_names df) -> get_col df n = Err (KeyError n).
Proof.
  unfold get_col, col_names; destruct (lookup_col n (cols df)) eqn:E; [|reflexivity].
  intros H; exfalso; apply H; exact (lookup_col_In _ _ _ E).
Qed.

Lemma mapR_get_col_missing df names :
  (exists n, In n names /\ ~ In n (col_names df)) ->
  exists k, In k names /\ ~ In k (col_names df) /\
    mapR (get_col df) names = Err (KeyError k).
Proof.
  induction names as [|x t IH]; intros (n & Hn & Hm); [destruct Hn|].
  cbn [mapR]; destruct (get_col df x) as [c|e] eqn:E; cbn [rbind].
  - destruct Hn as [<-|Hn].
    + rewrite get_col_missing in E by exact Hm; discriminate.
    + destruct IH as (k & Hk & Hk' & Hr); [eauto|].
      exists k; split; [right; exact Hk|split; [exact Hk'|]].
      rewrite Hr; reflexivity.
  - exists x; unfold get_col in E.
    destruct (lookup_col x (cols df)) eqn:L; cbn in E; [discriminate|].
    inversion E; subst e.
    split; [left; reflexivity|split; [exact (lookup_col_None _ _ L)|reflexivity]].
Qed.

Lemma values_missing df names :
  (exists n, In n names /\ ~ In n (col_names df)) ->
  exists k, In k names /\ ~ In k (col_names df) /\ values df names = Err (KeyError k).
Proof.
  intros H; destruct (mapR_get_col_missing df names H) as (k & H1 & H2 & H3).
  exists k; split; [exact H1|split; [exact H2|]]; unfold values; rewrite H3; reflexivity.
Qed.

Lemma values_empty df names :
  (forall n, In n names -> get_col df n = Ok []) ->
  values df names = Ok (map (fun _ => []) names).
Proof.
  intros H; unfold values.
  assert (Hc : mapR (get_col df) names = Ok (map (fun _ => []) names)).
  { induction names as [|x t IH]; [reflexivity|].
    cbn [mapR map]; rewrite (H x (or_introl eq_refl)); cbn [rbind].
    rewrite IH by (intros n Hn; apply H; right; exact Hn); reflexivity. }
  rewrite Hc; cbn [rbind]; clear.
  induction names as [|x t IH]; [reflexivity|]; cbn [mapR map]; rewrite IH; reflexivity.
Qed.

Lemma set_scalers_no_rows df f :
  (forall n, In n ("id" :: real_inputs) -> get_col df n = Ok []) ->
  set_scalers df f = (set_identifiers f [], Err EmptyInput).
Proof.
  intros H.
  unfold set_scalers, bind, lift, modify; cbn -[real_inputs values get_col].
  rewrite (H "id" (or_introl eq_refl)).
  rewrite values_empty by (intros n Hn; apply H; right; exact Hn).
  reflexivity.
Qed.

Lemma select_false {A} (m : list bool) (l : list A) :
  Forall (fun b => b = false) m -> select m l = [].
Proof.
  unfold select; intros H; revert l; induction H as [|b m Hb _ IH]; intros [|x l];
    simpl; try reflexivity.
  subst b; apply IH.
Qed.

Lemma get_col_loc df m n : get_col (loc df m) n = rbind (get_col df n) (fun c => Ok (select m c)).
Proof.
  unfold get_col, loc; simpl; induction (cols df) as [|[k c] t IH]; simpl; [reflexivity|].
  destruct (String.eqb k n); [reflexivity|exact IH].
Qed.

Lemma split_parts_num df vb tb ds :
  get_col df "DAY" = Ok (map VNum ds) ->
  split_parts df vb tb =
    Ok (loc df (map (fun d => ltb_R d vb) ds),
        loc df (map (fun d => negb (ltb_R d vb) && ltb_R d tb) ds),
        loc df (map (fun d => negb (ltb_R d tb)) ds)).
Proof.
  intros Hday; unfold split_parts; rewrite Hday; cbn [rbind]; rewrite !cmp_mask_num;
    cbn [rbind]; rewrite and_mask_map; reflexivity.
Qed.

(** If the calibration table lacks the identifier column, [set_scalers]
    raises a KeyError on it and the formatter is unchanged; if it has it but
    lacks a real-valued input column, it raises a KeyError on a missing
    column after recording the new identifiers, keeping the previous
    scalers; if only 'STOCK' is missing, it raises a KeyError on 'STOCK'
    after setting the identifiers, the real scaler and the target scaler,
    keeping the previous label mappings and class counts. *)
Theorem set_scalers_missing_columns df f :
  (~ In "id" (col_names df) -> set_scalers df f = (f, Err (KeyError "id"))) /\
  (forall ids, get_col df "id" = Ok ids ->
     (exists n, In n real_inputs /\ ~ In n (col_names df)) ->
     exists k, In k real_inputs /\ ~ In k (col_names df) /\
       set_scalers df f = (set_identifiers f (pd_unique ids), Err (KeyError k))) /\
  (forall ids data rs tdata ts,
     get_col df "id" = Ok ids -> values df real_inputs = Ok data ->
     scaler_fit data = Ok rs ->
     values df ["rolling_volatility"] = Ok tdata -> scaler_fit tdata = Ok ts ->
     ~ In "STOCK" (col_names df) ->
     set_scalers df f =
       (set_target_scaler (set_real_scalers (set_identifiers f (pd_unique ids)) rs) ts,
        Err (KeyError "STOCK"))).
Proof.
  unfold set_scalers, bind, lift, modify;
    cbn -[categorical_inputs real_inputs values get_col scaler_fit].
  split; [|split].
  - intros H; rewrite get_col_missing by exact H; reflexivity.
  - intros ids Hid Hm; destruct (values_missing df real_inputs Hm) as (k & H1 & H2 & H3).
    exists k; split; [exact H1|split; [exact H2|]].
    rewrite Hid, H3; reflexivity.
  - intros ids data rs tdata ts Hid Hv Hf Ht Hft Hs.
    rewrite Hid, Hv, Hf, Ht, Hft, categorical_inputs_eq; cbn [mapR fit_categorical].
    unfold fit_categorical; rewrite get_col_missing by exact Hs; reflexivity.
Qed.

(** Calibrating on a table with no rows (its identifier and real-valued
    input columns present but empty) raises the empty-input error of
    [StandardScaler.fit] after setting the identifiers to the empty list;
    the previous scalers are kept. *)
Theorem set_scalers_empty_table df f :
  (forall n, In n ("id" :: real_inputs) -> get_col df n = Ok []) ->
  set_scalers df f = (set_identifiers f [], Err EmptyInput).
Proof. apply set_scalers_no_rows. Qed.

(** When no row of the table has a time bucket below [valid_boundary]
    (and the table has the identifier and real-valued input columns),
    [split_data] raises the empty-input error while calibrating on the
    empty training part, with the identifiers set to the empty list. *)
Theorem split_data_no_training_rows df vb tb ds f :
  get_col df "DAY" = Ok (map VNum ds) ->
  Forall (fun d => (vb <= d)%R) ds ->
  (forall n, In n ("id" :: real_inputs) -> In n (col_names df)) ->
  split_data df vb tb f = (set_identifiers f [], Err EmptyInput).
Proof.
  intros Hday Hall Hnames.
  assert (Hm : Forall (fun b => b = false) (map (fun d => ltb_R d vb) ds)).
  { apply Forall_map; eapply Forall_impl; [|exact Hall].
    intros d Hd; apply ltb_R_false; exact Hd. }
  assert (Hs : set_scalers (loc df (map (fun d => ltb_R d vb) ds)) f =
               (set_identifiers f [], Err EmptyInput)).
  { apply set_scalers_no_rows; intros n Hn.
    destruct (lookup_col_Some n (cols df) (Hnames n Hn)) as [c Hc].
    rewrite get_col_loc; unfold get_col at 1; rewrite Hc; cbn.
    rewrite select_false by exact Hm; reflexivity. }
  unfold split_data, bind at 1, lift at 1; rewrite (split_parts_num df vb tb ds Hday).
  unfold bind; rewrite Hs; reflexivity.
Qed.

(** With the real scaler set, [transform_inputs] on a table lacking a
    real-valued input column raises a KeyError on a missing column and
    leaves the formatter unchanged. *)
Theorem transform_inputs_missing_real_column f rs df :
  real_scalers f = Some rs ->
  (exists n, In n real_inputs /\ ~ In n (col_names df)) ->
  exists k, In k real_inputs /\ ~ In k (col_names df) /\
    transform_inputs df f = (f, Err (KeyError k)).
Proof.
  intros Hr Hm; destruct (values_missing df real_inputs Hm) as (k & H1 & H2 & H3).
  exists k; split; [exact H1|split; [exact H2|]].
  unfold transform_inputs, bind, get, lift, ret, transform_writes; rewrite Hr.
  destruct (cat_scalers f); cbn -[values real_inputs categorical_inputs];
    rewrite H3; reflexivity.
Qed.

(** With the real scalers set, [transform_inputs] on a table whose
    real-valued input columns are present and numeric but hold no row fails
    with sklearn's empty-input error (at least one sample is required), and
    the formatter is unchanged. *)
Theorem transform_inputs_no_rows f rs df data :
  real_scalers f = Some rs ->
  values df real_inputs = Ok data -> hd [] data = [] ->
  transform_inputs df f = (f, Err EmptyInput).
Proof.
  intros Hr Hv Hd.
  unfold transform_inputs, bind, get, lift, ret, transform_writes; rewrite Hr.
  destruct (cat_scalers f); cbn -[values real_inputs categorical_inputs scaler_transform];
    rewrite Hv; cbn [rbind]; unfold scaler_transform, check_array;
    destruct data as [|[|x0 d0] t0]; try reflexivity; discriminate.
Qed.

(** *** Transforming the calibration table *)

Lemma transform_calibration_table cal f0 f u :
  set_scalers cal f0 = (f, Ok u) ->
  exists data c out,
    values cal real_inputs = Ok data /\
    real_scalers f = Some (mk_scaler (map meanR data)
                    (map (fun c => handle_zeros_in_scale (sqrt (varR c))) data)) /\
    get_col cal "STOCK" = Ok c /\
    cat_scalers f = Some [("STOCK", label_encoder_fit (map py_str c))] /\
    num_classes_per_cat_input f = Some [nunique (map py_str c)] /\
    transform_inputs cal f = (f, Ok out).
Proof.
  intros Hcal.
  destruct (set_scalers_categorical _ _ _ _ Hcal) as (c & Hc & Hcs & Hn).
  destruct (set_scalers_ok _ _ _ _ Hcal)
    as (ids & data & rs & tdata & ts & cats & _ & Hv & Hfit & _ & _ & _ & Hf).
  pose proof (scaler_fit_ok _ _ Hfit) as Hrs.
  assert (Hr : real_scalers f = Some rs) by (rewrite Hf; reflexivity).
  assert (Hne : exists x0 d0 t0, data = (x0 :: d0) :: t0)
    by (destruct data as [|[|x0 d0] t0]; cbn in Hfit; try discriminate; eauto).
  set (enc := label_encoder_fit (map py_str c)) in *.
  assert (Hlen : Nat.eqb (List.length data) (List.length (mean_ rs)) = true).
  { apply Nat.eqb_eq; rewrite Hrs; simpl; rewrite length_map; reflexivity. }
  destruct (label_encoder_transform_known enc c) as (ks & Hks & _).
  { intros x Hx; unfold enc, label_encoder_fit; simpl.
    apply np_unique_In, in_map; exact Hx. }
  assert (Htw : exists ws, transform_writes f cal = Ok ws).
  { unfold transform_writes; rewrite Hcs, Hr.
    cbn -[values real_inputs scaler_transform encode_categorical]; rewrite Hv.
    cbn [rbind]; unfold scaler_transform, check_array.
    destruct Hne as (x0 & d0 & t0 & Hd); rewrite Hd in Hlen |- *; cbn [rbind].
    rewrite Hlen; cbn [rbind mapR].
    unfold encode_categorical; rewrite Hc; cbn [rbind of_option assoc].
    rewrite String.eqb_refl; cbn [rbind of_option]; rewrite Hks; cbn [rbind].
    eexists; reflexivity. }
  destruct Htw as [ws Hws].
  exists data, c, (apply_writes (copy cal) ws).
  split; [exact Hv|]; split; [rewrite Hr, Hrs; reflexivity|].
  split; [exact Hc|]; split; [exact Hcs|]; split; [exact Hn|].
  unfold transform_inputs, bind, get, lift, ret; simpl; rewrite Hws; reflexivity.
Qed.

Lemma transform_real_column f rs df out j n m s :
  real_scalers f = Some rs -> snd (transform_inputs df f) = Ok out ->
  nth_error real_inputs j = Some n ->
  nth_error (mean_ rs) j = Some m -> nth_error (scale_ rs) j = Some s ->
  exists ds, values df [n] = Ok [ds] /\
    get_col out n = Ok (map (fun x => VNum ((x - m) / s)%R) ds).
Proof.
  intros Hr Hout Hn Hm Hs.
  destruct (transform_inputs_ok _ _ _ Hout) as (ws & Hws & -> & _).
  destruct (transform_writes_names _ _ _ Hws) as (Hnd & _ & _).
  destruct (transform_writes_ok _ _ _ Hws) as (rs' & data & outd & w2 & Hr' & Hv & Ht & Hw & Heq).
  rewrite Hr in Hr'; inversion Hr'; subst rs'.
  destruct (values_nth _ _ _ _ _ Hv Hn) as (ds & Hds & Hvn).
  exists ds; split; [exact Hvn|].
  pose proof (scaler_transform_nth _ _ _ _ _ _ _ Ht Hds Hm Hs) as Ho.
  unfold get_col; rewrite apply_writes_lookup by exact Hnd.
  rewrite Heq, (assoc_combine_nth real_inputs (map (map VNum) outd) w2 j n
                  (map VNum (map (fun x => (x - m) / s)%R ds))).
  - simpl; rewrite map_map; reflexivity.
  - eapply NoDup_app_remove_r; exact real_inputs_NoDup.
  - exact Hn.
  - rewrite nth_error_map, Ho; reflexivity.
Qed.

(** Each real-valued input column of the transformed calibration table, in
    terms of the calibration column it comes from. *)
Lemma calibration_column cal f0 f u :
  set_scalers cal f0 = (f, Ok u) ->
  exists out, transform_inputs cal f = (f, Ok out) /\
    forall n, In n real_inputs -> exists c,
      values cal [n] = Ok [c] /\
      get_col out n = Ok (map (fun x => VNum ((x - meanR c) /
                                 handle_zeros_in_scale (sqrt (varR c)))%R) c).
Proof.
  intros Hcal.
  destruct (transform_calibration_table _ _ _ _ Hcal)
    as (data & c & out & Hv & Hr & _ & _ & _ & Ht).
  exists out; split; [exact Ht|]; intros n Hn.
  destruct (In_nth_error _ _ Hn) as [j Hj].
  destruct (values_nth _ _ _ _ _ Hv Hj) as (ds & Hds & Hvn).
  destruct (transform_real_column f _ cal out j n (meanR ds)
              (handle_zeros_in_scale (sqrt (varR ds))) Hr)
    as (ds' & Hvn' & Hout).
  - rewrite Ht; reflexivity.
  - exact Hj.
  - simpl; rewrite nth_error_map, Hds; reflexivity.
  - simpl; rewrite nth_error_map, Hds; reflexivity.
  - rewrite Hvn in Hvn'; inversion Hvn'; subst ds'.
    exists ds; split; [exact Hvn|exact Hout].
Qed.

Lemma sumR_affine m s l :
  sumR (map (fun x => (x - m) / s)%R l) = ((sumR l - INR (List.length l) * m) / s)%R.
Proof.
  induction l as [|x t IH]; cbn [map sumR List.length]; [simpl; unfold Rdiv; ring|].
  rewrite IH, S_INR; unfold Rdiv; ring.
Qed.

Lemma sumR_standardized s l : sumR (map (fun x => (x - meanR l) / s)%R l) = 0%R.
Proof.
  rewrite sumR_affine; unfold meanR.
  destruct l as [|x t]; [simpl; unfold Rdiv; ring|].
  assert (Hn : INR (List.length (x :: t)) <> 0%R) by (apply not_0_INR; discriminate).
  replace (sumR (x :: t) - INR (List.length (x :: t)) *
             (sumR (x :: t) / INR (List.length (x :: t))))%R with 0%R
    by (field; exact Hn).
  unfold Rdiv; ring.
Qed.

Lemma sumR_scale (g : R -> R) k l :
  sumR (map (fun x => g x / k)%R l) = (sumR (map g l) / k)%R.
Proof.
  induction l as [|x t IH]; cbn [map sumR]; [unfold Rdiv; ring|].
  rewrite IH; unfold Rdiv; ring.
Qed.

Lemma sumR_nonneg l : Forall (fun y => 0 <= y)%R l -> (0 <= sumR l)%R.
Proof. induction 1; simpl; lra. Qed.

Lemma sumR_nonneg_zero l :
  Forall (fun y => 0 <= y)%R l -> sumR l = 0%R -> Forall (fun y => y = 0%R) l.
Proof.
  induction 1 as [|x t Hx Ht IH]; simpl; intros H; constructor.
  - pose proof (sumR_nonneg t Ht); lra.
  - apply IH; pose proof (sumR_nonneg t Ht); lra.
Qed.

Lemma squares_nonneg m l : Forall (fun y => 0 <= y)%R (map (fun x => (x - m) ^ 2)%R l).
Proof. apply Forall_map, Forall_forall; intros x _; cbv beta.
  replace ((x - m) ^ 2)%R with ((x - m) * (x - m))%R by ring; apply Rle_0_sqr.
Qed.

Lemma varR_nonneg l : (0 <= varR l)%R.
Proof.
  unfold varR; destruct l as [|x t]; [simpl; unfold Rdiv; lra|].
  apply Rle_mult_inv_pos; [apply sumR_nonneg, squares_nonneg|].
  apply lt_0_INR; simpl; lia.
Qed.

Lemma meanR_standardized s l : meanR (map (fun x => (x - meanR l) / s)%R l) = 0%R.
Proof. unfold meanR at 1; rewrite sumR_standardized; unfold Rdiv; ring. Qed.

Lemma varR_standardized s l :
  s <> 0%R -> varR (map (fun x => (x - meanR l) / s)%R l) = (varR l / s ^ 2)%R.
Proof.
  intros Hs; unfold varR at 1; rewrite meanR_standardized, map_map, length_map.
  rewrite (map_ext (fun x => ((x - meanR l) / s - 0) ^ 2)%R
                   (fun x => (x - meanR l) ^ 2 / s ^ 2)%R)
    by (intros x; field; exact Hs).
  rewrite sumR_scale; unfold varR; unfold Rdiv; ring.
Qed.

Lemma handle_zeros_sqrt v : v <> 0%R -> (0 <= v)%R -> handle_zeros_in_scale (sqrt v) = sqrt v.
Proof.
  intros H0 Hle; unfold handle_zeros_in_scale; destruct (Req_EM_T (sqrt v) 0) as [E|E];
    [exfalso; apply H0; apply sqrt_eq_0; assumption|reflexivity].
Qed.

Lemma varR_zero l : varR l = 0%R -> Forall (fun x => x = meanR l) l.
Proof.
  intros H; destruct l as [|y t]; [constructor|].
  assert (Hn : (0 < INR (List.length (y :: t)))%R) by (apply lt_0_INR; simpl; lia).
  unfold varR in H.
  assert (Hs : sumR (map (fun x => (x - meanR (y :: t)) ^ 2)%R (y :: t)) = 0%R).
  { unfold Rdiv in H; apply Rmult_integral in H; destruct H as [H|H]; [exact H|].
    exfalso; apply (Rinv_neq_0_compat (INR (List.length (y :: t)))); [lra|exact H]. }
  apply sumR_nonneg_zero in Hs; [|apply squares_nonneg].
  apply Forall_map in Hs; eapply Forall_impl; [|exact Hs]; intros x Hx; simpl in Hx.
  assert (Hz : (x - meanR (y :: t) = 0)%R).
  { apply Rsqr_0_uniq; unfold Rsqr; rewrite <- Hx; ring. }
  lra.
Qed.

(** *** Label codes *)

Lemma index_of_nth s l k : index_of s l = Some k -> nth_error l k = Some s.
Proof.
  revert k; induction l as [|x t IH]; intros k; simpl; [discriminate|].
  destruct (String.eqb x s) eqn:E.
  - intros H; inversion H; apply String.eqb_eq in E; subst; reflexivity.
  - destruct (index_of s t) as [k'|]; simpl; intros H; inversion H; subst; apply IH; reflexivity.
Qed.

Lemma StronglySorted_NoDup l : StronglySorted str_lt l -> NoDup l.
Proof.
  induction 1 as [|a l _ IH Hf]; constructor; [|exact IH].
  intros Hin; rewrite Forall_forall in Hf; exact (str_lt_irrefl a (Hf a Hin)).
Qed.

Lemma nunique_np_unique l : nunique l = List.length (np_unique l).
Proof.
  unfold nunique; apply Nat.le_antisymm; apply NoDup_incl_length.
  - apply unique_aux_NoDup.
  - intros z; rewrite unique_aux_In, np_unique_In; tauto.
  - apply StronglySorted_NoDup, np_unique_sorted.
  - intros z; rewrite unique_aux_In, np_unique_In; simpl; tauto.
Qed.

Lemma sorted_nth_lt l i j a b :
  StronglySorted str_lt l -> nth_error l i = Some a -> nth_error l j = Some b ->
  i < j -> str_lt a b.
Proof.
  intros H; revert i j; induction H as [|x t _ IH Hf]; intros [|i] [|j] Ha Hb Hij;
    simpl in *; try discriminate; try lia.
  - inversion Ha; subst; rewrite Forall_forall in Hf; apply Hf.
    eapply nth_error_In; exact Hb.
  - apply (IH i j); [exact Ha|exact Hb|lia].
Qed.

Lemma transform_stock_column f enc df out c :
  cat_scalers f = Some [("STOCK", enc)] -> snd (transform_inputs df f) = Ok out ->
  get_col df "STOCK" = Ok c ->
  exists ks, get_col out "STOCK" = Ok (map (fun k => VNum (INR k)) ks) /\
    Forall2 (fun x k => index_of (py_str x) (classes_ enc) = Some k) c ks.
Proof.
  intros Hcs Hout Hc.
  destruct (transform_inputs_ok _ _ _ Hout) as (ws & Hws & -> & _).
  destruct (transform_writes_ok _ _ _ Hws) as (rs & data & outd & w2 & _ & _ & _ & Hw & Heq).
  rewrite Hcs, categorical_inputs_eq in Hw; cbn [mapR] in Hw.
  unfold encode_categorical at 1 in Hw; rewrite Hc in Hw; cbn [rbind of_option assoc] in Hw.
  rewrite String.eqb_refl in Hw; cbn [rbind of_option] in Hw.
  destruct (label_encoder_transform enc (map py_str c)) as [ks|e] eqn:Hks;
    cbn [rbind] in Hw; [|discriminate].
  inversion Hw; subst w2.
  exists ks; split.
  - rewrite Heq, apply_writes_snoc; unfold get_col, set_col; simpl.
    rewrite lookup_set_col_aux, String.eqb_refl; reflexivity.
  - unfold label_encoder_transform in Hks; apply mapR_Forall2 in Hks.
    clear -Hks; remember (map py_str c) as sc eqn:E; revert c E.
    induction Hks as [|s k st kt Hk _ IH]; intros [|x c] E; simpl in E; try discriminate;
      [constructor|].
    inversion E; subst; constructor; [|apply IH; reflexivity].
    destruct (index_of (py_str x) (classes_ enc)); cbn in Hk; [congruence|discriminate].
Qed.

(** Transforming the calibration table with the formatter calibrated on it
    succeeds, and in the output every 'STOCK' value is an integer code [k]
    below the recorded number of classes that decodes back to the label:
    [classes_[k]] is the stringified original value. *)
Theorem transform_calibration_table_codes cal f0 f u :
  set_scalers cal f0 = (f, Ok u) ->
  exists out c enc nc col,
    transform_inputs cal f = (f, Ok out) /\
    get_col cal "STOCK" = Ok c /\
    cat_scalers f = Some [("STOCK", enc)] /\
    num_classes_per_cat_input f = Some [nc] /\ nc = List.length (classes_ enc) /\
    get_col out "STOCK" = Ok col /\
    Forall2 (fun x y => exists k, y = VNum (INR k) /\ k < nc /\
                          nth_error (classes_ enc) k = Some (py_str x)) c col.
Proof.
  intros Hcal.
  destruct (transform_calibration_table _ _ _ _ Hcal)
    as (data & c & out & _ & _ & Hc & Hcs & Hn & Ht).
  destruct (transform_stock_column f _ cal out c Hcs) as (ks & Hcol & Hf);
    [rewrite Ht; reflexivity|exact Hc|].
  exists out, c, (label_encoder_fit (map py_str c)), (nunique (map py_str c)),
         (map (fun k => VNum (INR k)) ks).
  split; [exact Ht|]; split; [exact Hc|]; split; [exact Hcs|]; split; [exact Hn|].
  split; [rewrite nunique_np_unique; reflexivity|]; split; [exact Hcol|].
  rewrite nunique_np_unique.
  change (np_unique (map py_str c)) with (classes_ (label_encoder_fit (map py_str c))).
  revert Hf; generalize (classes_ (label_encoder_fit (map py_str c))) as l; intros l Hf.
  clear -Hf; induction Hf as [|x k c1 ks1 Hk _ IH]; simpl; constructor; [|exact IH].
  exists k; split; [reflexivity|]; apply index_of_nth in Hk.
  split; [apply nth_error_Some; congruence|exact Hk].
Qed.

(** Each real-valued input column of the calibration table, transformed by
    the formatter calibrated on it, has mean zero: its values sum to 0. *)
Theorem transform_calibration_table_mean_zero cal f0 f u :
  set_scalers cal f0 = (f, Ok u) ->
  exists out, transform_inputs cal f = (f, Ok out) /\
    forall n, In n real_inputs -> exists c ds,
      values cal [n] = Ok [c] /\ get_col out n = Ok (map VNum ds) /\
      List.length ds = List.length c /\ sumR ds = 0%R.
Proof.
  intros Hcal; destruct (calibration_column _ _ _ _ Hcal) as (out & Ht & Hcol).
  exists out; split; [exact Ht|]; intros n Hn.
  destruct (Hcol n Hn) as (c & Hv & Ho).
  exists c, (map (fun x => (x - meanR c) / handle_zeros_in_scale (sqrt (varR c)))%R c).
  split; [exact Hv|]; split; [rewrite Ho, map_map; reflexivity|].
  split; [apply length_map|apply sumR_standardized].
Qed.

(** Each real-valued input column of the calibration table, transformed by
    the formatter calibrated on it, has (population) variance 1 when the
    original column is not constant; a constant column (variance 0, scale
    replaced by 1) becomes all zeros. *)
Theorem transform_calibration_table_unit_variance cal f0 f u :
  set_scalers cal f0 = (f, Ok u) ->
  exists out, transform_inputs cal f = (f, Ok out) /\
    forall n, In n real_inputs -> exists c ds,
      values cal [n] = Ok [c] /\ get_col out n = Ok (map VNum ds) /\
      (varR c <> 0%R -> varR ds = 1%R) /\
      (varR c = 0%R -> Forall (fun y => y = 0%R) ds).
Proof.
  intros Hcal; destruct (calibration_column _ _ _ _ Hcal) as (out & Ht & Hcol).
  exists out; split; [exact Ht|]; intros n Hn.
  destruct (Hcol n Hn) as (c & Hv & Ho).
  exists c, (map (fun x => (x - meanR c) / handle_zeros_in_scale (sqrt (varR c)))%R c).
  split; [exact Hv|]; split; [rewrite Ho, map_map; reflexivity|].
  pose proof (varR_nonneg c) as Hle.
  split.
  - intros H0; rewrite varR_standardized by apply handle_zeros_in_scale_neq.
    rewrite handle_zeros_sqrt by assumption.
    assert (Hsq : (sqrt (varR c) ^ 2)%R = varR c)
      by (simpl; rewrite Rmult_1_r; apply sqrt_sqrt; exact Hle).
    rewrite Hsq; field; exact H0.
  - intros H0; apply Forall_map; eapply Forall_impl; [|exact (varR_zero c H0)].
    intros x Hx; simpl in Hx; rewrite Hx; unfold Rdiv; ring.
Qed.

(** After calibration a 'STOCK' label's code is its rank among the sorted
    distinct labels: two known labels get codes in the same order as the
    labels' string order, and the same code exactly when they are equal. *)
Theorem label_codes_follow_label_order cal f0 f u :
  set_scalers cal f0 = (f, Ok u) ->
  exists enc, cat_scalers f = Some [("STOCK", enc)] /\
    forall a b i j,
      index_of a (classes_ enc) = Some i -> index_of b (classes_ enc) = Some j ->
      (i < j <-> str_lt a b) /\ (i = j <-> a = b).
Proof.
  intros Hcal; destruct (set_scalers_categorical _ _ _ _ Hcal) as (c & _ & Hcs & _).
  exists (label_encoder_fit (map py_str c)); split; [exact Hcs|].
  pose proof (np_unique_sorted (map py_str c)) as Hs.
  set (l := classes_ (label_encoder_fit (map py_str c))).
  change (StronglySorted str_lt l) in Hs.
  intros a b i j Hi Hj; apply index_of_nth in Hi; apply index_of_nth in Hj.
  assert (Heq : i = j <-> a = b).
  { split; [intros ->; congruence|intros ->].
    destruct (Nat.lt_trichotomy i j) as [H|[H|H]]; [|exact H|];
      exfalso; apply (str_lt_irrefl b).
    - exact (sorted_nth_lt l i j b b Hs Hi Hj H).
    - exact (sorted_nth_lt l j i b b Hs Hj Hi H). }
  split; [|exact Heq]; split.
  - intros H; exact (sorted_nth_lt l i j a b Hs Hi Hj H).
  - intros H; destruct (Nat.lt_trichotomy i j) as [Hl|[He|Hg]]; [exact Hl| |];
      exfalso.
    + apply Heq in He; subst b; exact (str_lt_irrefl a H).
    + apply (str_lt_irrefl a); apply (str_lt_trans a b a H).
      exact (sorted_nth_lt l j i b a Hs Hj Hi Hg).
Qed.

End Volatility.

(** ** Counterexamples and instances on the sample tables *)

(** C1: calibrated on [cal_df] and run on it, [transform_inputs] does not
    pass the target column through: its one value 2 becomes 0. *)
Lemma transform_inputs_scales_target :
  exists out x,
    set_scalers sample_repr cal_df init =
      (fst (set_scalers sample_repr cal_df init), Ok tt) /\
    transform_inputs sample_repr cal_df (fst (set_scalers sample_repr cal_df init)) =
      (fst (set_scalers sample_repr cal_df init), Ok out) /\
    get_col cal_df "rolling_volatility" = Ok [VNum 2] /\
    get_col out "rolling_volatility" = Ok [VNum x] /\ x = 0%R.
Proof.
  do 2 eexists; split; [reflexivity|]; split; [reflexivity|].
  split; [reflexivity|]; split; [reflexivity|].
  cbv beta.
  assert (Hm : meanR [2%R] = 2%R) by (unfold meanR; simpl; field).
  rewrite Hm; unfold Rdiv; ring.
Qed.

(** C3: on a fresh formatter, [format_predictions] on a table with only the
    reserved columns returns its copy instead of failing. *)
Lemma format_predictions_uncalibrated_ok :
  format_predictions pred_reserved_df init = (init, Ok (copy pred_reserved_df)).
Proof. reflexivity. Qed.

(** C4: with [valid_boundary = 10 > test_boundary = 5] a row with time
    bucket 7 is put both in train and in test. *)
Lemma split_data_overlapping_parts :
  split_parts (mk_frame [0] [("DAY", [VNum 7])]) 10 5 =
    Ok (mk_frame [0] [("DAY", [VNum 7])], mk_frame [] [("DAY", [])],
        mk_frame [0] [("DAY", [VNum 7])]).
Proof.
  unfold split_parts, cmp_mask, and_mask; simpl.
  rewrite (ltb_R_true sample_repr 7 10), (ltb_R_false 7 5) by lra.
  reflexivity.
Qed.



(** C1: the amended statement on [cal_df], calibrated on itself. *)
Lemma transform_inputs_columns_witness :
  exists rs out,
    real_scalers (fst (set_scalers sample_repr cal_df init)) = Some rs /\
    snd (transform_inputs sample_repr cal_df (fst (set_scalers sample_repr cal_df init)))
      = Ok out /\
    In "rolling_volatility" (real_inputs) /\
    index out = index cal_df /\ col_names out = col_names cal_df.
Proof.
  do 2 eexists; split; [reflexivity|]; split; [reflexivity|].
  destruct (transform_inputs_columns sample_repr
              (fst (set_scalers sample_repr cal_df init)) _ cal_df _ eq_refl eq_refl)
    as (H1 & H2 & H3 & _).
  split; [exact H1|split; [exact H2|exact H3]].
Defined.

(** C2: [split_df] has one row in each part for the boundaries (7, 8);
    [split_df'] has the same training row and other validation and test
    rows. The calibration is that of the training row alone (target mean
    and scale of [2], labels ['AAPL']) and the same for both tables. *)
Lemma split_data_calibrates_on_train_witness :
  split_parts split_df 7 8 =
    Ok (loc split_df [true; false; false], loc split_df [false; true; false],
        loc split_df [false; false; true]) /\
  fst (split_data sample_repr split_df 7 8 init) =
    fst (set_scalers sample_repr (loc split_df [true; false; false]) init) /\
  fst (split_data sample_repr split_df' 7 8 init) =
    fst (split_data sample_repr split_df 7 8 init) /\
  target_scaler (fst (split_data sample_repr split_df 7 8 init)) =
    Some (mk_scaler [meanR [2%R]] [handle_zeros_in_scale (sqrt (varR [2%R]))]) /\
  cat_scalers (fst (split_data sample_repr split_df 7 8 init)) =
    Some [("STOCK", label_encoder_fit ["AAPL"])].
Proof.
  assert (H : split_parts split_df 7 8 =
                Ok (loc split_df [true; false; false], loc split_df [false; true; false],
                    loc split_df [false; false; true])).
  { unfold split_parts, cmp_mask, and_mask; simpl.
    rewrite (ltb_R_true sample_repr 5 7), (ltb_R_false 7 7), (ltb_R_false 9 7),
      (ltb_R_true sample_repr 5 8), (ltb_R_true sample_repr 7 8), (ltb_R_false 9 8) by lra.
    reflexivity. }
  assert (H' : split_parts split_df' 7 8 =
                 Ok (loc split_df [true; false; false], loc split_df' [false; true; false],
                     loc split_df' [false; false; true])).
  { unfold split_parts, cmp_mask, and_mask; simpl.
    rewrite (ltb_R_true sample_repr 5 7), (ltb_R_false 7 7), (ltb_R_false 9 7),
      (ltb_R_true sample_repr 5 8), (ltb_R_true sample_repr 7 8), (ltb_R_false 9 8) by lra.
    reflexivity. }
  destruct (split_data_calibrates_on_train sample_repr init split_df 7 8 _ _ _ H)
    as (_ & H2 & H3 & H4).
  split; [exact H|]; split; [exact H2|]; split; [exact (H3 _ _ _ H')|].
  destruct H4 as (data & c & stock & _ & Hc & Hs & _ & Ht & Hcat); [reflexivity|].
  assert (Ec : values (loc split_df [true; false; false]) ["rolling_volatility"] =
                 Ok [[2%R]]) by reflexivity.
  assert (Es : get_col (loc split_df [true; false; false]) "STOCK" = Ok [VStr "AAPL"])
    by reflexivity.
  rewrite Ec in Hc; rewrite Es in Hs; injection Hc as <-; injection Hs as <-.
  split; [exact Ht|exact Hcat].
Defined.

(** C3: the amended statement on [cal_df], [pred_df] and [pred_reserved_df]. *)
Lemma uncalibrated_formatter_errors_witness :
  transform_inputs sample_repr cal_df init = (init, Err ScalersNotSet) /\
  format_predictions pred_df init = (init, Err AttributeError) /\
  format_predictions pred_reserved_df init = (init, Ok (copy pred_reserved_df)).
Proof.
  destruct (uncalibrated_formatter_errors sample_repr cal_df pred_df) as (H1 & H2 & _).
  destruct (uncalibrated_formatter_errors sample_repr cal_df pred_reserved_df)
    as (_ & _ & H3).
  split; [exact H1|split].
  - apply H2; exists "p50"; split; [simpl; tauto|reflexivity].
  - apply H3; reflexivity.
Defined.

(** C4: the amended statement on the time buckets 5 to 9 with boundaries
    (7, 8). *)
Lemma split_data_partition_witness :
  (7 <= 8)%R /\ get_col day_df "DAY" = Ok (map VNum [5; 6; 7; 8; 9]%R) /\
  List.length (index day_df) = List.length [5; 6; 7; 8; 9]%R /\
  Permutation (index day_df)
    (index (loc day_df (map (fun d => ltb_R d 7) [5; 6; 7; 8; 9]%R)) ++
     index (loc day_df (map (fun d => negb (ltb_R d 7) && ltb_R d 8) [5; 6; 7; 8; 9]%R)) ++
     index (loc day_df (map (fun d => negb (ltb_R d 8)) [5; 6; 7; 8; 9]%R)))%list.
Proof.
  assert (Hle : (7 <= 8)%R) by lra.
  destruct (split_data_partition sample_repr init day_df 7 8 [5; 6; 7; 8; 9]%R
              Hle eq_refl eq_refl) as (_ & _ & _ & Hp & _).
  split; [exact Hle|split; [reflexivity|split; [reflexivity|exact Hp]]].
Defined.



(** C7: with the formatter calibrated on [cal_df] (label 'AAPL'), the label
    'MSFT' of [unseen_df] makes [transform_inputs] fail; with the formatter
    calibrated on [cal2_df] (labels 'AAPL' and 'MSFT'), [cal2_df] is
    transformed, its labels 'MSFT' and 'AAPL' becoming their positions. *)
Lemma transform_inputs_unseen_label_witness :
  transform_inputs sample_repr unseen_df (fst (set_scalers sample_repr cal_df init)) =
    (fst (set_scalers sample_repr cal_df init), Err UnseenLabel) /\
  exists out col,
    transform_inputs sample_repr cal2_df (fst (set_scalers sample_repr cal2_df init)) =
      (fst (set_scalers sample_repr cal2_df init), Ok out) /\
    get_col out "STOCK" = Ok col /\
    Forall2 (fun x y => exists k,
               index_of (py_str sample_repr x) ["AAPL"; "MSFT"] = Some k /\ y = VNum (INR k))
            [VStr "MSFT"; VStr "AAPL"] col.
Proof.
  split.
  - destruct (transform_inputs_unseen_label sample_repr cal_df init _ tt eq_refl)
      as (enc & Henc & H).
    edestruct (H unseen_df) as [Hu _]; [reflexivity|cbn; discriminate|reflexivity|].
    apply Hu; exists (VStr "MSFT"); split; [left; reflexivity|].
    injection Henc as <-; simpl; intros [E|[]]; discriminate.
  - destruct (transform_inputs_unseen_label sample_repr cal2_df init
                (fst (set_scalers sample_repr cal2_df init)) tt eq_refl)
      as (enc & Henc & H).
    assert (E : cat_scalers (fst (set_scalers sample_repr cal2_df init)) =
                  Some [("STOCK", mk_label_encoder ["AAPL"; "MSFT"])]) by reflexivity.
    rewrite E in Henc; injection Henc as <-.
    edestruct (H cal2_df) as [_ Hk]; [reflexivity|cbn; discriminate|reflexivity|].
    apply Hk; intros x [<-|[<-|[]]]; cbn; tauto.
Defined.

(** C8: [transform_inputs] on the heap holding [cal_df] alone. *)
Lemma transform_inputs_at_no_mutation_witness :
  exists h' o,
    snd (transform_inputs_at sample_repr [cal_df] 0
           (fst (set_scalers sample_repr cal_df init))) = Ok (h', o) /\
    o = 1 /\ nth_error h' 0 = Some cal_df.
Proof.
  do 2 eexists; split; [reflexivity|].
  destruct (transform_inputs_at_no_mutation sample_repr
              (fst (set_scalers sample_repr cal_df init)) [cal_df] 0 _ _ eq_refl)
    as (_ & Ho & _ & Hkeep & _).
  split; [exact Ho|exact (Hkeep 0 (Nat.lt_0_succ 0))].
Defined.

(** C9: calibrating on [cal2_df] (labels 'MSFT', 'AAPL'), then on
    [cal3_df] (labels 'AAPL', 'MSFT', 'AAPL') with the same formatter. *)
Lemma set_scalers_categorical_deterministic_witness :
  cat_scalers (fst (set_scalers sample_repr cal2_df init)) =
    cat_scalers (fst (set_scalers sample_repr cal3_df
                        (fst (set_scalers sample_repr cal2_df init)))) /\
  num_classes_per_cat_input (fst (set_scalers sample_repr cal2_df init)) =
    num_classes_per_cat_input (fst (set_scalers sample_repr cal3_df
                        (fst (set_scalers sample_repr cal2_df init)))) /\
  cat_scalers (fst (set_scalers sample_repr cal2_df init)) =
    Some [("STOCK", mk_label_encoder ["AAPL"; "MSFT"])].
Proof.
  destruct (set_scalers_categorical_deterministic sample_repr cal2_df cal3_df init
              (fst (set_scalers sample_repr cal2_df init))
              (fst (set_scalers sample_repr cal2_df init))
              (fst (set_scalers sample_repr cal3_df
                      (fst (set_scalers sample_repr cal2_df init)))) tt tt
              [VStr "MSFT"; VStr "AAPL"] [VStr "AAPL"; VStr "MSFT"; VStr "AAPL"]
              eq_refl eq_refl eq_refl eq_refl)
    as (H1 & H2 & H3 & _).
  - intros s; cbn; tauto.
  - split; [exact H1|split; [exact H2|rewrite H3; reflexivity]].
Defined.

(** C10: the identifiers recorded for [ids_df], whose identifier column is
    [2; 1; 2; 3]: the distinct values in order of first appearance. *)
Lemma set_scalers_identifiers_first_appearance_witness :
  get_col ids_df "id" = Ok (map VNum [2; 1; 2; 3]%R) /\
  identifiers (fst (set_scalers sample_repr ids_df init)) =
    Some (map VNum [2; 1; 3]%R).
Proof.
  split; [reflexivity|].
  rewrite (proj1 (set_scalers_identifiers_first_appearance sample_repr ids_df init
                    (map VNum [2; 1; 2; 3]%R) eq_refl)).
  f_equal; unfold pd_unique; cbn [map unique_aux].
  destruct (in_dec cell_eq_dec (VNum 2) []) as [Hc|_]; [destruct Hc|].
  destruct (in_dec cell_eq_dec (VNum 1) [VNum 2]) as [Hc|_];
    [destruct Hc as [Hc|[]]; injection Hc as Hc; lra|].
  destruct (in_dec cell_eq_dec (VNum 2) [VNum 1; VNum 2]) as [_|Hc];
    [|exfalso; apply Hc; right; left; reflexivity].
  destruct (in_dec cell_eq_dec (VNum 3) [VNum 1; VNum 2]) as [Hc|_];
    [destruct Hc as [Hc|[Hc|[]]]; injection Hc as Hc; lra|].
  reflexivity.
Defined.

(** ** Instances of the further properties on the sample tables *)

(** A table without 'id', one with only 'id', and [cal_df] without 'STOCK'. *)
Lemma set_scalers_missing_columns_witness :
  set_scalers sample_repr pred_reserved_df init = (init, Err (KeyError "id")) /\
  (exists k, In k real_inputs /\
     set_scalers sample_repr (mk_frame [0] [("id", [VNum 0])]) init =
       (set_identifiers init (pd_unique [VNum 0]), Err (KeyError k))) /\
  (exists g, set_scalers sample_repr
               (mk_frame [0] (filter (fun '(n, _) => negb (String.eqb n "STOCK"))
                                     (cols cal_df))) init =
             (g, Err (KeyError "STOCK"))).
Proof.
  destruct (set_scalers_missing_columns sample_repr pred_reserved_df init) as (H1 & _ & _).
  destruct (set_scalers_missing_columns sample_repr
              (mk_frame [0] [("id", [VNum 0])]) init) as (_ & H2 & _).
  destruct (set_scalers_missing_columns sample_repr
              (mk_frame [0] (filter (fun '(n, _) => negb (String.eqb n "STOCK"))
                                    (cols cal_df))) init) as (_ & _ & H3).
  split; [apply H1; cbn; intuition discriminate|].
  split.
  - destruct (H2 [VNum 0] eq_refl) as (k & Hk & _ & Hs).
    + exists "PRICE_ASK_0"; split; [cbn; intuition|cbn; intuition discriminate].
    + exists k; split; [exact Hk|exact Hs].
  - eexists; apply (H3 _ _ _ _ _ eq_refl eq_refl eq_refl eq_refl eq_refl).
    cbn; intuition discriminate.
Defined.

(** A table with the identifier and real-valued columns, all empty. *)
Lemma set_scalers_empty_table_witness :
  set_scalers sample_repr (mk_frame [] (map (fun n => (n, [])) ("id" :: real_inputs))) init =
    (set_identifiers init [], Err EmptyInput).
Proof.
  apply set_scalers_empty_table.
  intros n Hn; repeat (destruct Hn as [<-|Hn]; [reflexivity|]); destruct Hn.
Defined.

(** [cal_df] has its one row in time bucket 5, after the boundary 1. *)
Lemma split_data_no_training_rows_witness :
  split_data sample_repr cal_df 1 8 init = (set_identifiers init [], Err EmptyInput).
Proof.
  apply (split_data_no_training_rows sample_repr cal_df 1 8 [5%R]).
  - reflexivity.
  - constructor; [lra|constructor].
  - intros n Hn; repeat (destruct Hn as [<-|Hn]; [cbn; intuition|]); destruct Hn.
Defined.

(** [day_df] has none of the real-valued input columns. *)
Lemma transform_inputs_missing_real_column_witness :
  exists k, In k real_inputs /\
    transform_inputs sample_repr day_df (fst (set_scalers sample_repr cal_df init)) =
      (fst (set_scalers sample_repr cal_df init), Err (KeyError k)).
Proof.
  destruct (transform_inputs_missing_real_column sample_repr
              (fst (set_scalers sample_repr cal_df init)) _ day_df eq_refl)
    as (k & Hk & _ & Hs).
  - exists "PRICE_ASK_0"; split; [cbn; intuition|cbn; intuition discriminate].
  - exists k; split; [exact Hk|exact Hs].
Defined.

(** [cal_df] calibrated on itself: label codes. *)
Lemma transform_calibration_table_codes_witness :
  exists out c enc nc col,
    transform_inputs sample_repr cal_df (fst (set_scalers sample_repr cal_df init)) =
      (fst (set_scalers sample_repr cal_df init), Ok out) /\
    get_col cal_df "STOCK" = Ok c /\
    cat_scalers (fst (set_scalers sample_repr cal_df init)) = Some [("STOCK", enc)] /\
    num_classes_per_cat_input (fst (set_scalers sample_repr cal_df init)) = Some [nc] /\
    nc = List.length (classes_ enc) /\
    get_col out "STOCK" = Ok col /\
    Forall2 (fun x y => exists k, y = VNum (INR k) /\ k < nc /\
                          nth_error (classes_ enc) k = Some (py_str sample_repr x)) c col.
Proof.
  exact (transform_calibration_table_codes sample_repr cal_df init _ tt eq_refl).
Defined.

(** [cal_df] calibrated on itself: real columns of mean zero. *)
Lemma transform_calibration_table_mean_zero_witness :
  exists out,
    transform_inputs sample_repr cal_df (fst (set_scalers sample_repr cal_df init)) =
      (fst (set_scalers sample_repr cal_df init), Ok out) /\
    forall n, In n real_inputs -> exists c ds,
      values cal_df [n] = Ok [c] /\ get_col out n = Ok (map VNum ds) /\
      List.length ds = List.length c /\ sumR ds = 0%R.
Proof.
  exact (transform_calibration_table_mean_zero sample_repr cal_df init _ tt eq_refl).
Defined.

(** [cal2_df] calibrated on itself: its columns [1; 3] are not constant, and
    the transformed target has variance 1. *)
Lemma transform_calibration_table_unit_variance_witness :
  exists out,
    transform_inputs sample_repr cal2_df (fst (set_scalers sample_repr cal2_df init)) =
      (fst (set_scalers sample_repr cal2_df init), Ok out) /\
    values cal2_df ["rolling_volatility"] = Ok [[1; 3]%R] /\
    varR [1; 3]%R <> 0%R /\
    exists ds, get_col out "rolling_volatility" = Ok (map VNum ds) /\ varR ds = 1%R.
Proof.
  assert (Hm : meanR [1; 3]%R = 2%R) by (unfold meanR; simpl; field).
  assert (Hv : varR [1; 3]%R = 1%R) by (unfold varR; cbv zeta; rewrite Hm; simpl; field).
  assert (Ec : values cal2_df ["rolling_volatility"] = Ok [[1; 3]%R]) by reflexivity.
  destruct (transform_calibration_table_unit_variance sample_repr cal2_df init _ tt eq_refl)
    as (out & Hout & H).
  exists out; split; [exact Hout|]; split; [exact Ec|].
  split; [rewrite Hv; lra|].
  destruct (H "rolling_volatility") as (c & ds & Hc & Hds & H1 & _);
    [cbn; tauto|].
  rewrite Ec in Hc; injection Hc as <-.
  exists ds; split; [exact Hds|apply H1; rewrite Hv; lra].
Defined.

(** [cal2_df] calibrated on itself: the labels 'AAPL' and 'MSFT' get the
    codes 0 and 1, in their string order. *)
Lemma label_codes_follow_label_order_witness :
  exists enc,
    cat_scalers (fst (set_scalers sample_repr cal2_df init)) = Some [("STOCK", enc)] /\
    index_of "AAPL" (classes_ enc) = Some 0 /\ index_of "MSFT" (classes_ enc) = Some 1 /\
    (0 < 1 <-> str_lt "AAPL" "MSFT") /\ (0 = 1 <-> "AAPL" = "MSFT").
Proof.
  destruct (label_codes_follow_label_order sample_repr cal2_df init
                (fst (set_scalers sample_repr cal2_df init)) tt eq_refl)
    as (enc & Henc & H).
  assert (E : cat_scalers (fst (set_scalers sample_repr cal2_df init)) =
                Some [("STOCK", mk_label_encoder ["AAPL"; "MSFT"])]) by reflexivity.
  assert (He : enc = mk_label_encoder ["AAPL"; "MSFT"])
    by (rewrite E in Henc; injection Henc as ->; reflexivity).
  assert (Ha : index_of "AAPL" (classes_ enc) = Some 0) by (rewrite He; reflexivity).
  assert (Hb : index_of "MSFT" (classes_ enc) = Some 1) by (rewrite He; reflexivity).
  exists enc; split; [exact Henc|]; split; [exact Ha|]; split; [exact Hb|].
  exact (H _ _ _ _ Ha Hb).
Defined.

(** A table with every schema column and no row, transformed by the
    formatter calibrated on [cal_df]. *)
Lemma transform_inputs_no_rows_witness :
  transform_inputs sample_repr (sample_table [] [] [] [])
    (fst (set_scalers sample_repr cal_df init)) =
    (fst (set_scalers sample_repr cal_df init), Err EmptyInput).
Proof.
  exact (transform_inputs_no_rows sample_repr (fst (set_scalers sample_repr cal_df init)) _
           (sample_table [] [] [] []) _ eq_refl eq_refl eq_refl).
Defined.
